(** * prodvision backend: a shallow embedding of [backend/app.py]

    The request handlers of the FastAPI application are embedded as
    functions over an explicit application state.  Python exceptions are
    results of a small error monad, the process-wide [login_attempts]
    dictionary is a [gmap], and the two MongoDB collections are lists of
    documents in store order.

    Conventions of the embedding:
    - [str] is [string], holding the UTF-8 bytes of the text; [len] and
      slicing count characters, not bytes.  The methods that consult the
      Unicode database ([lower], [strip], [isdigit], [isupper]) and the
      conversion [int(s)] are the runtime's and are taken as the interface
      [Runtime].
    - [time.time()] readings are exact rationals ([Q]); [datetime] values
      are integers counting microseconds since the epoch.
    - Every clock reading or random value a handler obtains is an explicit
      argument named after the source variable that receives it.
    - A handler runs to completion without interleaving with other tasks.
    - The collections accept every read and write; password hashing, the
      upstream services and the classifier may raise. *)

From Stdlib Require Import ZArith QArith Lia Lqa String Ascii List.
From stdpp Require Import base gmap list strings pretty.

Local Open Scope string_scope.
Local Open Scope Z_scope.

(** ** Python values and exceptions *)

Module Py.

(** The exceptions that occur in [app.py].  [HTTPException] is FastAPI's;
    [RequestValidationError] is what FastAPI raises (answered with status
    422) when a request body fails its pydantic model; the remaining ones
    are ordinary subclasses of [Exception]. *)
Inductive exn : Type :=
| HTTPException (status_code : Z) (detail : string)
| RequestValidationError (fields : list string)
| ExpiredSignatureError
| JWTError
| KeyError (key : string)
| IndexError
| TypeError
| OtherError (msg : string).

Inductive res (A : Type) : Type :=
| Ok (a : A)
| Raise (e : exn).
Arguments Ok {A} a.
Arguments Raise {A} e.

Definition is_http (e : exn) : bool :=
  match e with HTTPException _ _ => true | _ => false end.

(** [str(e)] for the exceptions above, as far as the handlers print it. *)
Definition str_exn (e : exn) : string :=
  match e with
  | HTTPException _ d => d
  | RequestValidationError _ => "validation error"
  | ExpiredSignatureError => "Signature has expired."
  | JWTError => "Signature verification failed."
  | KeyError k => "'" ++ k ++ "'"
  | IndexError => "list index out of range"
  | TypeError => "Object is not JSON serializable"
  | OtherError m => m
  end.

(** *** Characters and strings *)

Definition ord (c : ascii) : Z := Z.of_N (N_of_ascii c).

(** Byte ranges, as the regular expressions of [app.py] spell them:
    [0-9], [A-Z], [a-z]. *)
Definition ascii_digit (c : ascii) : bool := (48 <=? ord c) && (ord c <=? 57).
Definition ascii_upper (c : ascii) : bool := (65 <=? ord c) && (ord c <=? 90).
Definition ascii_small (c : ascii) : bool := (97 <=? ord c) && (ord c <=? 122).

Fixpoint any (p : ascii -> bool) (s : string) : bool :=
  match s with
  | EmptyString => false
  | String c r => p c || any p r
  end.

(** A byte [10xxxxxx] continues the character begun before it. *)
Definition is_continuation (c : ascii) : bool := (128 <=? ord c) && (ord c <? 192).

Definition continues (s : string) : bool :=
  match s with
  | String c _ => is_continuation c
  | EmptyString => false
  end.

(** The characters of a text, each as a one-character string. *)
Fixpoint chars (s : string) : list string :=
  match s with
  | EmptyString => []
  | String c r =>
      if continues r
      then match chars r with
           | x :: xs => String c x :: xs
           | [] => [String c EmptyString]
           end
      else String c EmptyString :: chars r
  end.

(** [any(p(char) for char in s)] *)
Definition any_char (p : string -> bool) (s : string) : bool :=
  existsb p (chars s).

(** [len(s)]: the number of characters. *)
Fixpoint len_nat (s : string) : nat :=
  match s with
  | EmptyString => O
  | String c r => if is_continuation c then len_nat r else S (len_nat r)
  end.

Definition len (s : string) : Z := Z.of_nat (len_nat s).

(** What the Python runtime decides from its Unicode tables:
    [s.lower()], [s.strip()], [c.isdigit()] and [c.isupper()] for a
    one-character [c], and [int(s)] ([None] when it raises [ValueError]). *)
Class Runtime : Type := {
  lower : string -> string;
  strip : string -> string;
  str_isdigit : string -> bool;
  str_isupper : string -> bool;
  int_of_str : string -> option Z
}.

(** The restriction of these methods to ASCII text. *)
Definition ascii_space (c : ascii) : bool :=
  ((9 <=? ord c) && (ord c <=? 13)) || ((28 <=? ord c) && (ord c <=? 32)).

Definition ascii_lower_char (c : ascii) : ascii :=
  if ascii_upper c then ascii_of_N (N_of_ascii c + 32) else c.

Fixpoint ascii_lower (s : string) : string :=
  match s with
  | EmptyString => EmptyString
  | String c r => String (ascii_lower_char c) (ascii_lower r)
  end.

Fixpoint ascii_lstrip (s : string) : string :=
  match s with
  | EmptyString => EmptyString
  | String c r => if ascii_space c then ascii_lstrip r else s
  end.

Fixpoint ascii_rstrip (s : string) : string :=
  match s with
  | EmptyString => EmptyString
  | String c r =>
      match ascii_rstrip r with
      | EmptyString => if ascii_space c then EmptyString else String c EmptyString
      | r' => String c r'
      end
  end.

Definition ascii_strip (s : string) : string := ascii_rstrip (ascii_lstrip s).

Definition ascii_is (p : ascii -> bool) (c : string) : bool :=
  match c with
  | String a EmptyString => p a
  | _ => false
  end.

(** Decimal digits, with single underscores between digits; [seen] tells
    whether the previous character was a digit. *)
Fixpoint ascii_int_digits (acc : Z) (seen : bool) (s : string) : option Z :=
  match s with
  | EmptyString => if seen then Some acc else None
  | String c r =>
      if ascii_digit c then ascii_int_digits (acc * 10 + (ord c - 48)) true r
      else if (ord c =? 95) && seen
      then match r with
           | String d _ => if ascii_digit d then ascii_int_digits acc false r else None
           | EmptyString => None
           end
      else None
  end.

(** Surrounding whitespace and one sign are allowed. *)
Definition ascii_int (s : string) : option Z :=
  match ascii_strip s with
  | String c r =>
      if ord c =? 43 then ascii_int_digits 0 false r
      else if ord c =? 45 then option_map Z.opp (ascii_int_digits 0 false r)
      else ascii_int_digits 0 false (String c r)
  | EmptyString => None
  end.

Fixpoint startswith (p s : string) : bool :=
  match p, s with
  | EmptyString, _ => true
  | String a p', String b s' => if Ascii.eqb a b then startswith p' s' else false
  | String _ _, EmptyString => false
  end.

(** [sub in s] *)
Fixpoint contains (sub s : string) : bool :=
  startswith sub s ||
  match s with
  | EmptyString => false
  | String _ r => contains sub r
  end.

(** [drop n s] removes [n] bytes; it is used with ASCII prefixes only. *)
Fixpoint drop (n : nat) (s : string) : string :=
  match n, s with
  | O, _ => s
  | S n', String _ r => drop n' r
  | S _, EmptyString => EmptyString
  end.

(** [s[:n]]: the first [n] characters. *)
Fixpoint take (n : nat) (s : string) : string :=
  match s with
  | EmptyString => EmptyString
  | String c r =>
      if is_continuation c then String c (take n r)
      else match n with
           | O => EmptyString
           | S n' => String c (take n' r)
           end
  end.

(** [s.split(sep)] for a non-empty [sep]: scan left to right, cut at each
    occurrence and resume after it.  [skip] counts the characters of a
    separator that is being stepped over, [cur] is the piece read so far
    (reversed). *)
Fixpoint split_aux (sep : string) (skip : nat) (cur : list ascii) (s : string)
  : list string :=
  match s with
  | EmptyString => [string_of_list_ascii (List.rev cur)]
  | String c r =>
      match skip with
      | S k => split_aux sep k cur r
      | O =>
          if startswith sep s
          then string_of_list_ascii (List.rev cur)
                 :: split_aux sep (Nat.pred (String.length sep)) [] r
          else split_aux sep O (c :: cur) r
      end
  end.

Definition split (sep s : string) : list string := split_aux sep O [] s.

(** [int(x)] on a number: truncation toward zero. *)
Definition int (x : Q) : Z := Z.quot (Qnum x) (Z.pos (Qden x)).

(** [a or b] on optional strings: [None] and [""] are falsy. *)
Definition or_else (a b : option string) : option string :=
  match a with
  | Some EmptyString | None => b
  | Some _ => a
  end.

End Py.
Export Py.

(** ** Documents and application state *)

(** A document of [db.users], as [register] writes it. *)
Record UserDoc : Type := mkUserDoc {
  u_email : string;
  u_name : string;
  u_hashed_password : string;
  u_created_at : Z
}.

(** The pydantic model [User]. *)
Record User : Type := mkUser {
  email : string;
  name : string;
  hashed_password : string
}.

(** A [savedAt] field as the store holds it: a BSON date when the handler
    passed a [datetime], a BSON string when it passed [isoformat()] text. *)
Inductive bson_time : Type :=
| BDate (t : Z)
| BString (s : string).

(** A document of [db.videos]. *)
Record VideoDoc : Type := mkVideoDoc {
  v_id : string;
  v_title : string;
  v_thumbnail : option string;
  v_platform : string;
  v_genre : string;
  v_savedAt : bson_time;
  v_watchStatus : string;
  v_userId : string;
  v_description : string;
  v_originalUrl : option string
}.

(** An outbound request made through [httpx]: the endpoint and the
    identifier sent to it. *)
Record HttpCall : Type := mkHttpCall {
  call_url : string;
  call_arg : string
}.

(** The state the handlers share: the [login_attempts] dictionary, the two
    collections, and a log of the outbound requests made so far. *)
Record State : Type := mkState {
  login_attempts : gmap string (Z * Q);
  users : list UserDoc;
  videos : list VideoDoc;
  http_log : list HttpCall
}.

Definition set_login_attempts (f : gmap string (Z * Q) -> gmap string (Z * Q))
  (st : State) : State :=
  mkState (f (login_attempts st)) (users st) (videos st) (http_log st).

Definition set_users (f : list UserDoc -> list UserDoc) (st : State) : State :=
  mkState (login_attempts st) (f (users st)) (videos st) (http_log st).

Definition set_videos (f : list VideoDoc -> list VideoDoc) (st : State) : State :=
  mkState (login_attempts st) (users st) (f (videos st)) (http_log st).

Definition log_call (c : HttpCall) (st : State) : State :=
  mkState (login_attempts st) (users st) (videos st) (http_log st ++ [c])%list.

(** A handler: it reads and mutates the state and either returns or raises.
    Mutations made before a [raise] stay. *)
Definition M (A : Type) : Type := State -> res A * State.

Definition ret {A} (a : A) : M A := fun st => (Ok a, st).
Definition raise {A} (e : exn) : M A := fun st => (Raise e, st).
Definition bind {A B} (m : M A) (k : A -> M B) : M B :=
  fun st =>
    match m st with
    | (Ok a, st') => k a st'
    | (Raise e, st') => (Raise e, st')
    end.
Definition lift {A} (r : res A) : M A := fun st => (r, st).
Definition gets {A} (f : State -> A) : M A := fun st => (Ok (f st), st).
Definition modify (f : State -> State) : M unit := fun st => (Ok tt, f st).

Notation "'let*' x ':=' m 'in' k" := (bind m (fun x => k))
  (at level 10, x name, m at level 100, k at level 200).
Notation "'do' m 'then' k" := (bind m (fun _ => k))
  (at level 10, m at level 100, k at level 200).

(** [try: body / except HTTPException: raise / except Exception as e:
    raise HTTPException(500, detail(e))] *)
Definition reraise_500 {A} (detail : exn -> string) (body : M A) : M A :=
  fun st =>
    match body st with
    | (Raise e, st') =>
        if is_http e then (Raise e, st')
        else (Raise (HTTPException 500 (detail e)), st')
    | r => r
    end.

(** ** Rate limiter *)

Definition RATE_LIMIT_DURATION : Q := 60%Q.
Definition MAX_ATTEMPTS : Z := 5.

(** [a > b] on clock readings. *)
Definition Qgtb (a b : Q) : bool := negb (Qle_bool a b).

Definition too_many_detail (time_left : Z) : string :=
  "Too many login attempts. Please try again in " ++ pretty time_left ++ " seconds".

Definition check_rate_limit (client_ip : string) (current_time : Q) : M unit :=
  fun st =>
    match login_attempts st !! client_ip with
    | Some (attempts, first_attempt) =>
        if Qgtb (current_time - first_attempt) RATE_LIMIT_DURATION
        then (Ok tt, set_login_attempts <[client_ip := (1, current_time)]> st)
        else if attempts >=? MAX_ATTEMPTS
        then
          let time_left := int (RATE_LIMIT_DURATION - (current_time - first_attempt)) in
          (Raise (HTTPException 429 (too_many_detail time_left)), st)
        else (Ok tt, set_login_attempts <[client_ip := (attempts + 1, first_attempt)]> st)
    | None => (Ok tt, set_login_attempts <[client_ip := (1, current_time)]> st)
    end.

(** ** Bearer tokens

    [jwt.encode] and [jwt.decode] belong to python-jose.  They are embedded
    symbolically: a compact JWS is the triple of its algorithm, the key its
    signature was computed with and its payload, so the signature verifies
    under exactly that key; every other string is [Malformed].  Claim values
    are strings, integers and, before encoding, [datetime]s. *)

Module Jose.

(** Values of the claims dictionary handed to [jwt.encode]. *)
Inductive pyval : Type :=
| PStr (s : string)
| PInt (z : Z)
| PDatetime (t : Z).

(** Values of a decoded payload; the claims this application issues and
    reads are strings and integers. *)
Inductive jval : Type :=
| JStr (s : string)
| JInt (z : Z).

Inductive token : Type :=
| JWS (alg : string) (signed_with : string) (payload : gmap string jval)
| Malformed (raw : string).

(** [timegm(t.utctimetuple())]: whole seconds since the epoch. *)
Definition timegm (t : Z) : Z := t / 1000000.

(** [timedelta(minutes=m)] *)
Definition minutes (m : Z) : Z := m * 60 * 1000000.
(** [timedelta(days=d)] *)
Definition days (d : Z) : Z := d * 86400 * 1000000.

Definition time_claims : list string := ["exp"; "iat"; "nbf"].

(** [jwt.encode] turns a [datetime] under a time claim into seconds; any
    other [datetime] is not JSON serializable. *)
Definition encode_claim (k : string) (v : pyval) : option jval :=
  match v with
  | PStr s => Some (JStr s)
  | PInt z => Some (JInt z)
  | PDatetime t =>
      if bool_decide (k ∈ time_claims) then Some (JInt (timegm t)) else None
  end.

Definition encode (claims : gmap string pyval) (key : string) (algorithm : string)
  : res token :=
  if bool_decide (map_Forall (fun k v => is_Some (encode_claim k v)) claims)
  then Ok (JWS algorithm key (map_imap encode_claim claims))
  else Raise TypeError.

(** [int(v)] on a claim value. *)
Definition claim_int {R : Runtime} (v : jval) : option Z :=
  match v with
  | JInt z => Some z
  | JStr s => int_of_str s
  end.

Definition and_then (a b : res unit) : res unit :=
  match a with
  | Ok _ => b
  | Raise e => Raise e
  end.

(** The claim checks of [jwt.decode] as [app.py] calls it: no audience,
    issuer, subject or access token is passed, no leeway, every
    [verify_*] option at its default.  [JWTClaimsError] is a [JWTError]
    and is answered as one. *)
Definition validate_iat {R : Runtime} (payload : gmap string jval) : res unit :=
  match payload !! "iat" with
  | None => Ok tt
  | Some v => match claim_int v with Some _ => Ok tt | None => Raise JWTError end
  end.

Definition validate_nbf {R : Runtime} (payload : gmap string jval) (now : Z)
  : res unit :=
  match payload !! "nbf" with
  | None => Ok tt
  | Some v =>
      match claim_int v with
      | None => Raise JWTError
      | Some nbf => if nbf >? now then Raise JWTError else Ok tt
      end
  end.

Definition validate_exp {R : Runtime} (payload : gmap string jval) (now : Z)
  : res unit :=
  match payload !! "exp" with
  | None => Ok tt
  | Some v =>
      match claim_int v with
      | None => Raise JWTError
      | Some exp => if exp <? now then Raise ExpiredSignatureError else Ok tt
      end
  end.

(** With no expected audience, every token that names one is refused. *)
Definition validate_aud (payload : gmap string jval) : res unit :=
  match payload !! "aud" with
  | None => Ok tt
  | Some _ => Raise JWTError
  end.

Definition validate_sub (payload : gmap string jval) : res unit :=
  match payload !! "sub" with
  | Some (JInt _) => Raise JWTError
  | _ => Ok tt
  end.

Definition validate_jti (payload : gmap string jval) : res unit :=
  match payload !! "jti" with
  | Some (JInt _) => Raise JWTError
  | _ => Ok tt
  end.

(** With no access token to compare against, [at_hash] is refused. *)
Definition validate_at_hash (payload : gmap string jval) : res unit :=
  match payload !! "at_hash" with
  | None => Ok tt
  | Some _ => Raise JWTError
  end.

Definition validate_claims {R : Runtime} (payload : gmap string jval) (utcnow : Z)
  : res unit :=
  let now := timegm utcnow in
  and_then (validate_iat payload)
    (and_then (validate_nbf payload now)
       (and_then (validate_exp payload now)
          (and_then (validate_aud payload)
             (and_then (validate_sub payload)
                (and_then (validate_jti payload)
                   (validate_at_hash payload)))))).

Definition decode {R : Runtime} (tok : token) (key : string)
  (algorithms : list string) (utcnow : Z) : res (gmap string jval) :=
  match tok with
  | Malformed _ => Raise JWTError
  | JWS alg signed_with payload =>
      if negb (bool_decide (alg ∈ algorithms)) then Raise JWTError
      else if negb (String.eqb signed_with key) then Raise JWTError
      else match validate_claims payload utcnow with
           | Ok _ => Ok payload
           | Raise e => Raise e
           end
  end.

End Jose.
Export Jose.

Definition ALGORITHM : string := "HS256".
Definition ACCESS_TOKEN_EXPIRE_MINUTES : Z := 30.

(** The pydantic model [UserCreate], after validation. *)
Record UserCreate : Type := mkUserCreate {
  uc_email : string;
  uc_name : string;
  uc_password : string
}.

(** The JSON body of [POST /api/auth/register], before validation. *)
Record RegisterBody : Type := mkRegisterBody {
  body_email : string;
  body_name : string;
  body_password : string
}.

Record RegisterResponse : Type := mkRegisterResponse {
  reg_message : string;
  reg_email : string
}.

Record LoginResponse : Type := mkLoginResponse {
  access_token : token;
  token_type : string;
  expires_in : Z;
  resp_user : string * string
}.

(** What [create_access_token] reads from its environment: the two
    [datetime.utcnow()] readings, [time.time()] and [os.urandom(8).hex()]. *)
Record TokenEnv : Type := mkTokenEnv {
  utcnow_expire : Z;
  utcnow_iat : Z;
  time_jti : Q;
  urandom_hex : string
}.

(** [Field(..., min_length=lo, max_length=hi)] *)
Definition length_within (lo hi : Z) (s : string) : bool :=
  (lo <=? len s) && (len s <=? hi).

Section Auth.

Context {R : Runtime}.
(** The environment's signing secret. *)
Variable SECRET_KEY : string.
(** passlib's [pwd_context.verify] and [pwd_context.hash]; hashing may
    refuse a password, verification is taken to answer for every stored
    hash. *)
Variable verify_password : string -> string -> bool.
Variable get_password_hash : string -> res string.
(** pydantic's [EmailStr]: the validated address, or a rejection. *)
Variable EmailStr : string -> option string.

Definition find_user (e : string) (docs : list UserDoc) : option UserDoc :=
  List.find (fun d => String.eqb (u_email d) e) docs.

Definition get_user (e : string) : M (option User) :=
  gets (fun st =>
    match find_user e (users st) with
    | Some d => Some (mkUser (u_email d) (u_name d) (u_hashed_password d))
    | None => None
    end).

Definition create_access_token (data : gmap string pyval) (env : TokenEnv)
  : res token :=
  let expire := utcnow_expire env + minutes ACCESS_TOKEN_EXPIRE_MINUTES in
  let to_encode :=
    <["jti" := PStr (pretty (int (time_jti env)) ++ "_" ++ urandom_hex env)]>
      (<["type" := PStr "access"]>
        (<["iat" := PDatetime (utcnow_iat env)]>
          (<["exp" := PDatetime expire]> data))) in
  match encode to_encode SECRET_KEY ALGORITHM with
  | Ok encoded_jwt => Ok encoded_jwt
  | Raise _ => Raise (HTTPException 500 "Could not create access token")
  end.

(** The [try] block of [get_current_user]: decode, then read [sub]. *)
Definition validate_token (tok : token) (utcnow : Z) : res string :=
  match decode tok SECRET_KEY [ALGORITHM] utcnow with
  | Ok payload =>
      match payload !! "sub" with
      | Some (JStr e) => Ok e
      | _ => Raise (HTTPException 401 "Invalid authentication credentials")
      end
  | Raise ExpiredSignatureError => Raise (HTTPException 401 "Token has expired")
  | Raise JWTError => Raise (HTTPException 401 "Could not validate credentials")
  | Raise e => Raise e
  end.

Definition get_current_user (tok : token) (utcnow : Z) : M User :=
  let* token_data_email := lift (validate_token tok utcnow) in
  let* user := get_user token_data_email in
  match user with
  | None => raise (HTTPException 401 "User not found")
  | Some u => ret u
  end.

(** *** Registration *)

(** FastAPI builds the [UserCreate] argument; a body that fails the model
    never reaches the handler. *)
Definition validate_UserCreate (b : RegisterBody) : res UserCreate :=
  let errors :=
    ((if EmailStr (body_email b) is Some _ then [] else ["email"])
     ++ (if length_within 2 50 (body_name b) then [] else ["name"])
     ++ (if length_within 6 50 (body_password b) then [] else ["password"]))%list in
  match errors, EmailStr (body_email b) with
  | [], Some e => Ok (mkUserCreate e (body_name b) (body_password b))
  | _, _ => Raise (RequestValidationError errors)
  end.

Definition register (user : UserCreate) (utcnow : Z) : M RegisterResponse :=
  reraise_500 (fun _ => "An unexpected error occurred during registration")
    (let* existing := gets (fun st => find_user (lower (uc_email user)) (users st)) in
     match existing with
     | Some _ => raise (HTTPException 400 "Email already registered")
     | None =>
         if negb (any_char str_isdigit (uc_password user))
         then raise (HTTPException 400 "Password must contain at least one number")
         else if negb (any_char str_isupper (uc_password user))
         then raise (HTTPException 400
                       "Password must contain at least one uppercase letter")
         else
           let* hashed := lift (get_password_hash (uc_password user)) in
           let user_dict :=
             mkUserDoc (lower (uc_email user)) (uc_name user) hashed utcnow in
           do modify (set_users (fun docs => (docs ++ [user_dict])%list)) then
           ret (mkRegisterResponse "User created successfully"
                  (lower (uc_email user)))
     end).

(** [POST /api/auth/register]: model validation, then the handler. *)
Definition register_endpoint (b : RegisterBody) (utcnow : Z) : M RegisterResponse :=
  let* user := lift (validate_UserCreate b) in
  register user utcnow.

(** *** Login *)

Definition login (client_ip username password : string)
  (current_time time_default : Q) (utcnow : Z) (env : TokenEnv) : M LoginResponse :=
  reraise_500 (fun _ => "An error occurred during login")
    (do check_rate_limit client_ip current_time then
     let e := strip (lower username) in
     let* user := get_user e in
     match user with
     | None => raise (HTTPException 401 "Email not registered")
     | Some user =>
         if negb (verify_password password (hashed_password user))
         then
           do modify (set_login_attempts (fun la =>
                let '(current_attempts, first_attempt) :=
                  default (0, time_default) (la !! client_ip) in
                <[client_ip := (current_attempts + 1, first_attempt)]> la)) then
           raise (HTTPException 401 "Incorrect password")
         else
           let* tok := lift (create_access_token
                         (<["client_ip" := PStr client_ip]>
                           (<["type" := PStr "access"]>
                             (<["iat" := PDatetime utcnow]>
                               (<["name" := PStr (name user)]>
                                 (<["sub" := PStr (email user)]> ∅)))))
                         env) in
           do modify (set_login_attempts (fun la =>
                if bool_decide (is_Some (la !! client_ip))
                then delete client_ip la else la)) then
           ret (mkLoginResponse tok "bearer" (ACCESS_TOKEN_EXPIRE_MINUTES * 60)
                  (email user, name user))
     end).

End Auth.

(** ** Ingestion *)

(** The part of a [playlistItems] answer the handler reads. *)
Record Thumbnails : Type := mkThumbnails {
  th_maxres : option string;
  th_high : option string;
  th_medium : option string;
  th_default : option string
}.

Record ResourceId : Type := mkResourceId { rid_videoId : option string }.

Record Snippet : Type := mkSnippet {
  sn_resourceId : option ResourceId;
  sn_title : option string;
  sn_description : option string;
  sn_thumbnails : option Thumbnails
}.

Record Item : Type := mkItem { it_snippet : option Snippet }.

Record PlaylistData : Type := mkPlaylistData { items : option (list Item) }.

(** The part of an Instagram media answer the handler reads. *)
Record MediaData : Type := mkMediaData {
  md_media_type : option string;
  md_id : option string;
  md_caption : option string;
  md_thumbnail_url : option string;
  md_permalink : option string
}.

(** An [httpx] response: the status and what [response.json()] gives. *)
Record Response (A : Type) : Type := mkResponse {
  status_code : Z;
  json : res A
}.
Arguments mkResponse {A} _ _.
Arguments status_code {A} _.
Arguments json {A} _.

Record PlaylistResult : Type := mkPlaylistResult {
  pl_message : string;
  pl_count : Z;
  pl_videos : list VideoDoc
}.

Record InstagramResult : Type := mkInstagramResult {
  ig_message : string;
  ig_video_id : string;
  ig_video_title : string;
  ig_video_platform : string;
  ig_video_genre : string
}.

Definition candidate_labels : list string :=
  ["Music and Entertainment"; "Gaming and Esports"; "Education and Learning";
   "Technology and Programming"; "Lifestyle and Vlogs"; "Sports and Fitness";
   "News and Politics"; "Arts and Creativity"; "Science and Nature";
   "Food and Cooking"].

Definition genre_mapping : gmap string string :=
  list_to_map
    [("Music and Entertainment", "music"); ("Gaming and Esports", "gaming");
     ("Education and Learning", "education");
     ("Technology and Programming", "technology");
     ("Lifestyle and Vlogs", "lifestyle"); ("Sports and Fitness", "sports");
     ("News and Politics", "news"); ("Arts and Creativity", "arts");
     ("Science and Nature", "science"); ("Food and Cooking", "food")].

(** The character class [[a-zA-Z0-9_-]]. *)
Definition is_id_char (c : ascii) : bool :=
  ascii_small c || ascii_upper c || ascii_digit c || (ord c =? 95) || (ord c =? 45).

Definition strip_prefix (p s : string) : option string :=
  if startswith p s then Some (drop (String.length p) s) else None.

Definition opt_prefix (p s : string) : string :=
  if startswith p s then drop (String.length p) s else s.

Fixpoint span_id (s : string) : string :=
  match s with
  | String c r => if is_id_char c then String c (span_id r) else EmptyString
  | EmptyString => EmptyString
  end.

(** [(?:reel|p)/[a-zA-Z0-9_-]+] at the head of [s]; gives the run of
    identifier characters. *)
Definition reel_or_p (s : string) : option string :=
  let tail t :=
    match strip_prefix "/" t with
    | Some u => match span_id u with EmptyString => None | i => Some i end
    | None => None
    end in
  match strip_prefix "reel" s with
  | Some t => tail t
  | None => match strip_prefix "p" s with Some t => tail t | None => None end
  end.

(** [re.match(r'https?://(?:www\.)?instagram\.com/(?:reel|p)/[a-zA-Z0-9_-]+/?.*', url)] *)
Definition match_instagram_url (url : string) : bool :=
  match strip_prefix "http" url with
  | None => false
  | Some s1 =>
      match strip_prefix "://" (opt_prefix "s" s1) with
      | None => false
      | Some s2 =>
          match strip_prefix "instagram.com/" (opt_prefix "www." s2) with
          | None => false
          | Some s3 => bool_decide (is_Some (reel_or_p s3))
          end
      end
  end.

(** [re.search(r'/(?:reel|p)/([a-zA-Z0-9_-]+)/?', url)], group 1. *)
Fixpoint search_video_id (url : string) : option string :=
  let here :=
    match strip_prefix "/" url with
    | Some t => reel_or_p t
    | None => None
    end in
  match here with
  | Some i => Some i
  | None =>
      match url with
      | EmptyString => None
      | String _ r => search_video_id r
      end
  end.

(** Monadic traversal of a list in the result monad (the body of a [for]
    loop that may raise). *)
Fixpoint for_each {A B} (f : A -> res B) (l : list A) : res (list B) :=
  match l with
  | [] => Ok []
  | x :: r =>
      match f x with
      | Raise e => Raise e
      | Ok y => match for_each f r with
                | Raise e => Raise e
                | Ok ys => Ok (y :: ys)
                end
      end
  end.

Definition required {A} (key : string) (o : option A) : res A :=
  match o with Some a => Ok a | None => Raise (KeyError key) end.

Section Ingest.

(** The zero-shot pipeline: the [labels] of its result, or an exception. *)
Variable classifier : string -> list string -> res (list string).
(** The two upstream services, by the identifier requested. *)
Variable youtube_playlist_items : string -> res (Response PlaylistData).
Variable instagram_media : string -> res (Response MediaData).
Variable INSTAGRAM_ACCESS_TOKEN : option string.
(** [datetime.isoformat] *)
Variable isoformat : Z -> string.

Definition classify_video_genre (title description : string) : res string :=
  let body :=
    let text_to_classify := title ++ ". " ++ description in
    match classifier text_to_classify candidate_labels with
    | Raise e => Raise e
    | Ok labels =>
        match labels with
        | [] => Raise IndexError
        | top_label :: _ => Ok (default "other" (genre_mapping !! top_label))
        end
    end in
  match body with
  | Ok g => Ok g
  | Raise _ => Ok "other"
  end.

Definition http_get {A} (url : string) (service : string -> res A) (arg : string)
  : M A :=
  fun st => (service arg, log_call (mkHttpCall url arg) st).

Definition youtube_video (current_time : Z) (owner : string) (item : Item)
  : res VideoDoc :=
  match required "snippet" (it_snippet item) with
  | Raise e => Raise e
  | Ok snippet =>
  match required "resourceId" (sn_resourceId snippet) with
  | Raise e => Raise e
  | Ok resource_id =>
  match required "videoId" (rid_videoId resource_id) with
  | Raise e => Raise e
  | Ok video_id =>
  match required "title" (sn_title snippet) with
  | Raise e => Raise e
  | Ok title =>
      let description := default "" (sn_description snippet) in
      match classify_video_genre title description with
      | Raise e => Raise e
      | Ok video_genre =>
      match required "thumbnails" (sn_thumbnails snippet) with
      | Raise e => Raise e
      | Ok thumbnails =>
          let thumbnail_url :=
            or_else (th_maxres thumbnails)
              (or_else (th_high thumbnails)
                 (or_else (th_medium thumbnails) (th_default thumbnails))) in
          Ok (mkVideoDoc video_id title thumbnail_url "youtube" video_genre
                (BDate current_time) "unwatched" owner description None)
      end
      end
  end
  end
  end
  end.

Definition add_youtube_playlist (playlist_url : string) (current_user : User)
  (current_time : Z) : M PlaylistResult :=
  reraise_500 (fun e => "An error occurred: " ++ str_exn e)
    (if negb (contains "list=" playlist_url)
     then raise (HTTPException 400 "Invalid YouTube playlist URL")
     else
       let playlist_id :=
         hd "" (split "&" (List.last (split "list=" playlist_url) "")) in
       let* response :=
         http_get "https://www.googleapis.com/youtube/v3/playlistItems"
           youtube_playlist_items playlist_id in
       if status_code response =? 403
       then raise (HTTPException 403 "YouTube API key is invalid or quota exceeded")
       else if negb (status_code response =? 200)
       then raise (HTTPException 400
                     "Failed to fetch playlist. Please check the URL and try again.")
       else
         let* data := lift (json response) in
         match items data with
         | None | Some [] =>
             raise (HTTPException 404 "No videos found in playlist")
         | Some its =>
             let* vids := lift (for_each (youtube_video current_time
                                            (email current_user)) its) in
             match vids with
             | [] => raise (HTTPException 404 "No valid videos found in playlist")
             | _ =>
                 do modify (set_videos (fun docs => (docs ++ vids)%list)) then
                 ret (mkPlaylistResult
                        ("Successfully added " ++ pretty (Z.of_nat (length vids))
                           ++ " videos from playlist")
                        (Z.of_nat (length vids)) vids)
             end
         end).

Definition add_instagram_video (url : string) (current_user : User)
  (utcnow : Z) : M InstagramResult :=
  reraise_500 (fun e => "Failed to add Instagram video: " ++ str_exn e)
    (if negb (match_instagram_url url)
     then raise (HTTPException 400 "Invalid Instagram URL")
     else
       let* video_id :=
         lift (match search_video_id url with
               | Some i => Ok i
               | None => Raise (OtherError
                           "'NoneType' object has no attribute 'group'")
               end) in
       match INSTAGRAM_ACCESS_TOKEN with
       | None | Some EmptyString =>
           raise (HTTPException 501
             "Instagram integration requires API setup. Please configure INSTAGRAM_ACCESS_TOKEN in .env")
       | Some _ =>
           let* response :=
             http_get "https://graph.instagram.com/v12.0/" instagram_media
               video_id in
               if negb (status_code response =? 200)
           then raise (HTTPException 400
                  "Failed to fetch Instagram video. Please check the URL and try again.")
           else
             let* data := lift (json response) in
             if negb (bool_decide (md_media_type data ∈ [Some "VIDEO"; Some "REELS"]))
             then raise (HTTPException 400 "URL must point to a video or reel")
             else
               let caption := default "" (md_caption data) in
               let* video_genre := lift (classify_video_genre caption "") in
               let* vid := lift (required "id" (md_id data)) in
               let title :=
                 if len caption >? 100 then take 100 caption ++ "..." else caption in
               let* permalink := lift (required "permalink" (md_permalink data)) in
               let video :=
                 mkVideoDoc vid title
                   (Some (default "" (md_thumbnail_url data))) "instagram"
                   video_genre (BString (isoformat utcnow)) "unwatched"
                   (email current_user) caption (Some permalink) in
               do modify (set_videos (fun docs => (docs ++ [video])%list)) then
               ret (mkInstagramResult "Successfully added Instagram video"
                      (v_id video) (v_title video) "instagram" (v_genre video))
       end).

End Ingest.

(** ** Video store and sweeper *)

Record UpdateResult : Type := mkUpdateResult {
  matched_count : Z;
  modified_count : Z
}.

Definition set_watchStatus (s : string) (d : VideoDoc) : VideoDoc :=
  mkVideoDoc (v_id d) (v_title d) (v_thumbnail d) (v_platform d) (v_genre d)
    (v_savedAt d) s (v_userId d) (v_description d) (v_originalUrl d).

(** [update_one(filter, {"$set": {"watchStatus": s}})]: the first document
    in store order that satisfies the filter is the one updated; it counts
    as modified only when the stored value changes. *)
Fixpoint update_one (filter : VideoDoc -> bool) (s : string) (docs : list VideoDoc)
  : UpdateResult * list VideoDoc :=
  match docs with
  | [] => (mkUpdateResult 0 0, [])
  | d :: r =>
      if filter d
      then if String.eqb (v_watchStatus d) s
           then (mkUpdateResult 1 0, d :: r)
           else (mkUpdateResult 1 1, set_watchStatus s d :: r)
      else let '(result, r') := update_one filter s r in (result, d :: r')
  end.

(** The filter [{"id": video_id, "userId": owner}]. *)
Definition id_and_owner (video_id owner : string) (d : VideoDoc) : bool :=
  String.eqb (v_id d) video_id && String.eqb (v_userId d) owner.

Definition update_watch_status (video_id status : string) (current_user : User)
  : M string :=
  if negb (bool_decide (status ∈ ["watched"; "unwatched"]))
  then raise (HTTPException 400 "Invalid watch status")
  else
    let* result := (fun st =>
      let '(result, docs) :=
        update_one (id_and_owner video_id (email current_user))
          status (videos st) in
      (Ok result, set_videos (fun _ => docs) st)) in
    if modified_count result =? 0
    then raise (HTTPException 404 "Video not found")
    else ret "Watch status updated".

(** The filter [{"watchStatus": "unwatched", "savedAt": {"$lte": t}}].
    A comparison operator applied to a date only matches fields that hold
    a date. *)
Definition stale_filter (two_weeks_ago : Z) (d : VideoDoc) : bool :=
  String.eqb (v_watchStatus d) "unwatched"
  && match v_savedAt d with
     | BDate t => t <=? two_weeks_ago
     | BString _ => false
     end.

(** What [send_notification] prints. *)
Definition send_notification (user_email video_title : string) : string :=
  "Sending notification to " ++ user_email ++ " about " ++ video_title.

(** One turn of the loop of [check_unwatched_videos], run at [utcnow]: the
    documents found and the notifications sent for them. *)
Definition check_unwatched_videos_once (utcnow : Z) (st : State)
  : list VideoDoc * list string :=
  let two_weeks_ago := utcnow - days 14 in
  let unwatched_videos := List.filter (stale_filter two_weeks_ago) (videos st) in
  (unwatched_videos,
   List.map (fun video => send_notification (v_userId video) (v_title video))
     unwatched_videos).

(** The loop, unrolled over the instants at which it wakes up and the
    state it finds at each. *)
Definition check_unwatched_videos (wakeups : list (Z * State))
  : list (list VideoDoc * list string) :=
  List.map (fun '(utcnow, st) => check_unwatched_videos_once utcnow st) wakeups.

(** ** A concrete deployment

    Stand-ins for the collaborators outside [app.py], used to run the
    handlers on examples. *)

Module Sample.

Definition SECRET_KEY : string := "your-secret-key".

(** The ASCII restriction of the runtime's string methods. *)
Definition runtime : Runtime :=
  {| lower := ascii_lower;
     strip := ascii_strip;
     str_isdigit := ascii_is ascii_digit;
     str_isupper := ascii_is ascii_upper;
     int_of_str := ascii_int |}.

(** A stand-in hasher; like bcrypt it refuses a password with a NUL. *)
Definition hashed (p : string) : string := "$2b$12$" ++ p.
Definition get_password_hash (p : string) : res string :=
  if any (fun c => ord c =? 0) p
  then Raise (OtherError "NUL byte in password")
  else Ok (hashed p).
Definition verify_password (p h : string) : bool := String.eqb (hashed p) h.

Definition EmailStr (s : string) : option string :=
  if contains "@" s then Some s else None.

(** A stand-in text rendering of a [datetime]. *)
Definition isoformat (t : Z) : string := "1970-01-01T00:00:00+" ++ pretty t.

Definition classifier (text : string) (labels : list string)
  : res (list string) := Ok labels.

Definition youtube_playlist_items (playlist_id : string)
  : res (Response PlaylistData) :=
  Ok (mkResponse 200
        (Ok (mkPlaylistData
               (Some [mkItem
                        (Some (mkSnippet (Some (mkResourceId (Some "v1")))
                                 (Some "First video")
                                 (Some "")
                                 (Some (mkThumbnails None (Some "https://i/hq.jpg")
                                          None None))))])))).

Definition instagram_media (video_id : string) : res (Response MediaData) :=
  Ok (mkResponse 200
        (Ok (mkMediaData (Some "REELS") (Some "1789") (Some "A reel") None
               (Some "https://instagram.com/reel/ABC123")))).

Definition alice : User :=
  mkUser "alice@example.com" "Alice" (hashed "Passw0rd").

Definition alice_doc : UserDoc :=
  mkUserDoc "alice@example.com" "Alice" (hashed "Passw0rd") 0.

Definition empty : State := mkState ∅ [] [] [].

Definition env : TokenEnv := mkTokenEnv 0 0 0%Q "00112233aabbccdd".

Definition ip : string := "203.0.113.7".

(** Alice is registered; the address has 3 recorded attempts in a window
    opened at instant 0. *)
Definition three_attempts : State :=
  mkState {[ ip := (3, 0%Q) ]} [alice_doc] [] [].

(** The token [login] would give Alice. *)
Definition alice_token : token :=
  match create_access_token SECRET_KEY {[ "sub" := PStr "alice@example.com" ]} env with
  | Ok t => t
  | Raise _ => Malformed ""
  end.

Definition playlist_url : string := "https://www.youtube.com/playlist?list=PL1".

(** Alice ingests the same playlist twice and then marks video "v1" as
    watched. *)
Definition ingested_twice : State :=
  let st1 := snd (add_youtube_playlist classifier youtube_playlist_items
                    playlist_url alice 0 empty) in
  let st2 := snd (add_youtube_playlist classifier youtube_playlist_items
                    playlist_url alice 1 st1) in
  snd (update_watch_status "v1" "watched" alice st2).

End Sample.

(** A run of consecutive limiter checks from one address. *)
Fixpoint check_rate_limit_seq (client_ip : string) (times : list Q) : M unit :=
  match times with
  | [] => ret tt
  | t :: r => do check_rate_limit client_ip t then check_rate_limit_seq client_ip r
  end.

(** The claims [jwt.encode] can serialize. *)
Definition claims_ok (data : gmap string pyval) : Prop :=
  map_Forall (fun k v => is_Some (encode_claim k v)) data.

(** ** Authenticated endpoints and the video list *)

(** [current_user: User = Depends(get_current_user)]: the handler runs
    only with the user that the bearer token resolves to. *)
Definition authenticated {R : Runtime} {A} (key : string) (tok : token) (utcnow : Z)
  (handler : User -> M A) : M A :=
  let* current_user := get_current_user key tok utcnow in
  handler current_user.

(** [try: body / except Exception as e: raise HTTPException(500, detail(e))] *)
Definition except_500 {A} (detail : exn -> string) (body : M A) : M A :=
  fun st =>
    match body st with
    | (Raise e, st') => (Raise (HTTPException 500 (detail e)), st')
    | r => r
    end.

Definition set_savedAt (t : bson_time) (d : VideoDoc) : VideoDoc :=
  mkVideoDoc (v_id d) (v_title d) (v_thumbnail d) (v_platform d) (v_genre d)
    t (v_watchStatus d) (v_userId d) (v_description d) (v_originalUrl d).

(** [GET /api/videos]: the caller's documents in store order, a date under
    [savedAt] rendered by [isoformat]. *)
Definition get_videos (isoformat : Z -> string) (current_user : User)
  : M (list VideoDoc) :=
  except_500 (fun e => "Failed to fetch videos: " ++ str_exn e)
    (let* cursor :=
       gets (fun st =>
         List.filter (fun d => String.eqb (v_userId d) (email current_user))
           (videos st)) in
     ret (List.map (fun video =>
            match v_savedAt video with
            | BDate t => set_savedAt (BString (isoformat t)) video
            | BString _ => video
            end) cursor)).

(** ** Port selection ([run.py]) *)

(** [is_port_in_use]: [bind_fails] tells whether binding the port raises
    [socket.error], which the function turns into [True].  A port outside
    0..65535 makes [bind] raise [OverflowError], which it does not catch. *)
Definition is_port_in_use (bind_fails : Z -> bool) (port : Z) : res bool :=
  if (0 <=? port) && (port <=? 65535)
  then Ok (bind_fails port)
  else Raise (OtherError "bind(): port must be 0-65535.").

(** The [while] loop of [find_available_port]: the probe is evaluated
    before the test on [max_attempts].  [None] when the fuel runs out
    before the loop ends. *)
Fixpoint find_port_loop (bind_fails : Z -> bool) (fuel : nat)
  (port max_attempts : Z) : option (res (Z * Z)) :=
  match is_port_in_use bind_fails port with
  | Raise e => Some (Raise e)
  | Ok busy =>
      if busy && (max_attempts >? 0)
      then match fuel with
           | O => None
           | S f => find_port_loop bind_fails f (port + 1) (max_attempts - 1)
           end
      else Some (Ok (port, max_attempts))
  end.

(** The [RuntimeError] is rendered as [OtherError] with its message. *)
Definition find_available_port (bind_fails : Z -> bool) (fuel : nat)
  (start_port max_attempts : Z) : option (res Z) :=
  match find_port_loop bind_fails fuel start_port max_attempts with
  | None => None
  | Some (Raise e) => Some (Raise e)
  | Some (Ok (port, remaining)) =>
      Some (if remaining =? 0
            then Raise (OtherError "Could not find an available port")
            else Ok port)
  end.

(** ** Invariants and scenarios *)

(** The user collection holds lowercased, pairwise distinct addresses. *)
Definition emails_normalized {R : Runtime} (st : State) : Prop :=
  Forall (fun d => lower (u_email d) = u_email d) (users st)
  /\ NoDup (List.map u_email (users st)).

(** The genres a stored video can carry. *)
Definition genres : list string :=
  ["music"; "gaming"; "education"; "technology"; "lifestyle"; "sports";
   "news"; "arts"; "science"; "food"; "other"].

(** Consecutive logins from one address with the same user name. *)
Fixpoint login_seq {R : Runtime} (key : string) (verify : string -> string -> bool)
  (ip username : string) (tries : list (string * Q)) (utcnow : Z) (env : TokenEnv)
  (st : State) : State :=
  match tries with
  | [] => st
  | (password, t) :: r =>
      login_seq key verify ip username r utcnow env
        (snd (login key verify ip username password t t utcnow env st))
  end.

(** Further runs of the handlers on the sample deployment. *)
Module Scenario.

#[local] Existing Instance Sample.runtime.

(** Alice is registered and nothing else has happened. *)
Definition registered : State := mkState ∅ [Sample.alice_doc] [] [].

(** The address has used up its five attempts in a window opened at 0. *)
Definition blocked : State :=
  mkState {[ Sample.ip := (5, 0%Q) ]} [Sample.alice_doc] [] [].

Definition logged_in : res LoginResponse * State :=
  login Sample.SECRET_KEY Sample.verify_password Sample.ip " Alice@Example.com"
    "Passw0rd" 10%Q 10%Q 0 Sample.env Sample.three_attempts.

Definition login_response : LoginResponse :=
  match fst logged_in with
  | Ok r => r
  | Raise _ => mkLoginResponse (Malformed "") "" 0 ("", "")
  end.

Definition ingest : res PlaylistResult * State :=
  add_youtube_playlist Sample.classifier Sample.youtube_playlist_items
    Sample.playlist_url Sample.alice 0 Sample.empty.

Definition ingest_result : PlaylistResult :=
  match fst ingest with
  | Ok r => r
  | Raise _ => mkPlaylistResult "" 0 []
  end.

(** A playlist answer whose second item has no [resourceId]. *)
Definition broken_response : Response PlaylistData :=
  mkResponse 200
    (Ok (mkPlaylistData
           (Some [mkItem (Some (mkSnippet (Some (mkResourceId (Some "v1")))
                                  (Some "First video") None
                                  (Some (mkThumbnails None None None None))));
                  mkItem (Some (mkSnippet None (Some "Second video") None
                                  (Some (mkThumbnails None None None None))))]))).

Definition broken_playlist (playlist_id : string) : res (Response PlaylistData) :=
  Ok broken_response.

Definition reel_url : string := "https://instagram.com/reel/ABC123".



Definition one_video : VideoDoc :=
  mkVideoDoc "v1" "First video" None "youtube" "music" (BDate 0) "unwatched"
    "alice@example.com" "" None.

Definition library : State := mkState ∅ [Sample.alice_doc] [one_video] [].

(** Ports 8000, 8001 and 8002 are taken. *)
Definition ports_in_use (port : Z) : bool := port <? 8003.

End Scenario.

(** * Properties *)

Section Properties.

Context {R : Runtime}.

(** ** Rate limiter *)

Lemma Qgtb_true (a b : Q) : (b < a)%Q -> Qgtb a b = true.
Proof.
  intros H. unfold Qgtb. destruct (Qle_bool a b) eqn:E; [|reflexivity].
  apply Qle_bool_iff in E. lra.
Qed.

Lemma Qgtb_false (a b : Q) : (a <= b)%Q -> Qgtb a b = false.
Proof.
  intros H. unfold Qgtb. apply Qle_bool_iff in H. now rewrite H.
Qed.

Lemma check_rate_limit_first (ip : string) (now : Q) (st : State) :
  login_attempts st !! ip = None ->
  check_rate_limit ip now st
  = (Ok tt, set_login_attempts <[ip := (1, now)]> st).
Proof. intros H. unfold check_rate_limit. now rewrite H. Qed.

Lemma check_rate_limit_reset (ip : string) (now : Q) (st : State) (a : Z) (w : Q) :
  login_attempts st !! ip = Some (a, w) ->
  (RATE_LIMIT_DURATION < now - w)%Q ->
  check_rate_limit ip now st
  = (Ok tt, set_login_attempts <[ip := (1, now)]> st).
Proof.
  intros H Hw. unfold check_rate_limit. rewrite H.
  now rewrite (Qgtb_true _ _ Hw).
Qed.

Lemma check_rate_limit_count (ip : string) (now : Q) (st : State) (a : Z) (w : Q) :
  login_attempts st !! ip = Some (a, w) ->
  (now - w <= RATE_LIMIT_DURATION)%Q ->
  a < MAX_ATTEMPTS ->
  check_rate_limit ip now st
  = (Ok tt, set_login_attempts <[ip := (a + 1, w)]> st).
Proof.
  intros H Hw Ha. unfold check_rate_limit. rewrite H.
  rewrite (Qgtb_false _ _ Hw).
  destruct (a >=? MAX_ATTEMPTS) eqn:E; [lia | reflexivity].
Qed.

Lemma check_rate_limit_reject (ip : string) (now : Q) (st : State) (a : Z) (w : Q) :
  login_attempts st !! ip = Some (a, w) ->
  (now - w <= RATE_LIMIT_DURATION)%Q ->
  MAX_ATTEMPTS <= a ->
  check_rate_limit ip now st
  = (Raise (HTTPException 429
              (too_many_detail (int (RATE_LIMIT_DURATION - (now - w))))), st).
Proof.
  intros H Hw Ha. unfold check_rate_limit. rewrite H.
  rewrite (Qgtb_false _ _ Hw).
  destruct (a >=? MAX_ATTEMPTS) eqn:E; [reflexivity | lia].
Qed.

Lemma set_login_attempts_insert2 (ip : string) (x y : Z * Q) (st : State) :
  set_login_attempts <[ip := x]> (set_login_attempts <[ip := y]> st)
  = set_login_attempts <[ip := x]> st.
Proof.
  unfold set_login_attempts. cbn. now rewrite insert_insert_eq.
Qed.

(** Whatever the limiter held before, a check that opens a window at [t1]
    followed by four checks inside it leaves the entry at [(5, t1)]. *)
Lemma five_checks (ip : string) (st0 : State) (t1 t2 t3 t4 t5 : Q) :
  check_rate_limit ip t1 st0
  = (Ok tt, set_login_attempts <[ip := (1, t1)]> st0) ->
  (t2 - t1 <= 60)%Q -> (t3 - t1 <= 60)%Q -> (t4 - t1 <= 60)%Q -> (t5 - t1 <= 60)%Q ->
  check_rate_limit_seq ip [t1; t2; t3; t4; t5] st0
  = (Ok tt, set_login_attempts <[ip := (5, t1)]> st0).
Proof.
  intros H1 H2 H3 H4 H5.
  assert (step : forall a b t st, (t - t1 <= 60)%Q -> a < 5 -> b = a + 1 ->
            check_rate_limit ip t (set_login_attempts <[ip := (a, t1)]> st)
            = (Ok tt, set_login_attempts <[ip := (b, t1)]> st)).
  { intros a b t st Ht Ha ->.
    rewrite (check_rate_limit_count ip t _ a t1); try assumption.
    - now rewrite set_login_attempts_insert2.
    - cbn. apply lookup_insert_eq. }
  cbn [check_rate_limit_seq]. unfold bind at 1. rewrite H1.
  unfold bind at 1. rewrite (step 1 2 t2 st0 H2) by lia.
  unfold bind at 1. rewrite (step 2 3 t3 st0 H3) by lia.
  unfold bind at 1. rewrite (step 3 4 t4 st0 H4) by lia.
  unfold bind at 1. rewrite (step 4 5 t5 st0 H5) by lia.
  reflexivity.
Qed.

Lemma login_rate_limited (key : string) (verify : string -> string -> bool)
  (ip username password : string) (now tdef : Q) (utcnow : Z) (env : TokenEnv)
  (st : State) (e : exn) :
  check_rate_limit ip now st = (Raise e, st) -> is_http e = true ->
  login key verify ip username password now tdef utcnow env st = (Raise e, st).
Proof.
  intros H He. unfold login, reraise_500, bind. rewrite H. now rewrite He.
Qed.

(** C1.  Five limiter checks from one address inside one 60-second window
    (the first one opening the window at [t1]) leave the entry at [(5, t1)].
    A sixth check at [t6] is then rejected with status 429 and the
    remaining-seconds message when [t6 - t1 <= 60], both by the limiter and
    by [login], leaving the state as it was; when [t6 - t1 > 60] it resets
    the entry to [(1, t6)] and is allowed. *)
Theorem rate_limit_sixth_attempt
  (key : string) (verify : string -> string -> bool)
  (ip username password : string) (tdef : Q) (utcnow : Z) (env : TokenEnv)
  (st0 : State) (t1 t2 t3 t4 t5 t6 : Q) :
  (login_attempts st0 !! ip = None
   \/ exists a w, login_attempts st0 !! ip = Some (a, w) /\ (60 < t1 - w)%Q) ->
  (t2 - t1 <= 60)%Q -> (t3 - t1 <= 60)%Q -> (t4 - t1 <= 60)%Q -> (t5 - t1 <= 60)%Q ->
  let st5 := set_login_attempts <[ip := (5, t1)]> st0 in
  check_rate_limit_seq ip [t1; t2; t3; t4; t5] st0 = (Ok tt, st5)
  /\ ((t6 - t1 <= 60)%Q ->
      let rejected :=
        HTTPException 429
          ("Too many login attempts. Please try again in "
             ++ pretty (int (60 - (t6 - t1))) ++ " seconds") in
      check_rate_limit ip t6 st5 = (Raise rejected, st5)
      /\ login key verify ip username password t6 tdef utcnow env st5
         = (Raise rejected, st5))
  /\ ((60 < t6 - t1)%Q ->
      check_rate_limit ip t6 st5
      = (Ok tt, set_login_attempts <[ip := (1, t6)]> st0)).
Proof.
  intros Hstart H2 H3 H4 H5 st5.
  assert (Hl : login_attempts st5 !! ip = Some (5, t1)).
  { unfold st5. cbn. apply lookup_insert_eq. }
  split; [|split].
  - apply five_checks; try assumption.
    destruct Hstart as [Hn | (a & w & Hs & Hw)].
    + now apply check_rate_limit_first.
    + now apply (check_rate_limit_reset ip t1 st0 a w).
  - intros H6 rejected.
    assert (Hr : check_rate_limit ip t6 st5 = (Raise rejected, st5)).
    { apply (check_rate_limit_reject ip t6 st5 5 t1 Hl H6). unfold MAX_ATTEMPTS. lia. }
    split; [exact Hr|].
    now apply login_rate_limited.
  - intros H6.
    rewrite (check_rate_limit_reset ip t6 st5 5 t1 Hl H6).
    unfold st5. now rewrite set_login_attempts_insert2.
Qed.

(** ** Login *)

Lemma check_rate_limit_frame (ip : string) (now : Q) (st st1 : State) (r : res unit) :
  check_rate_limit ip now st = (r, st1) ->
  users st1 = users st /\ videos st1 = videos st /\ http_log st1 = http_log st.
Proof.
  unfold check_rate_limit. intros H.
  destruct (login_attempts st !! ip) as [[a w]|];
    repeat match type of H with
      | context [if ?b then _ else _] => destruct b
      end; inversion H; subst; auto.
Qed.

Lemma check_rate_limit_allowed_entry (ip : string) (now : Q) (st st1 : State) :
  check_rate_limit ip now st = (Ok tt, st1) ->
  exists a w, login_attempts st1 !! ip = Some (a, w)
              /\ st1 = set_login_attempts <[ip := (a, w)]> st.
Proof.
  unfold check_rate_limit. intros H.
  destruct (login_attempts st !! ip) as [[a w]|];
    repeat match type of H with
      | context [if ?b then _ else _] => destruct b
      end; inversion H; subst; eexists; eexists;
    (split; [cbn; apply lookup_insert_eq | reflexivity]).
Qed.

Lemma create_access_token_ok (key : string) (data : gmap string pyval)
  (env : TokenEnv) :
  claims_ok data ->
  exists payload,
    create_access_token key data env = Ok (JWS ALGORITHM key payload)
    /\ payload !! "exp"
       = Some (JInt (timegm (utcnow_expire env + minutes ACCESS_TOKEN_EXPIRE_MINUTES)))
    /\ payload !! "sub" = (data !! "sub") ≫= encode_claim "sub".
Proof.
  intros Hd. unfold create_access_token, encode.
  rewrite bool_decide_eq_true_2.
  - eexists. split; [reflexivity|]. split.
    + rewrite map_lookup_imap.
      rewrite lookup_insert_ne by discriminate.
      rewrite lookup_insert_ne by discriminate.
      rewrite lookup_insert_ne by discriminate.
      rewrite lookup_insert_eq. reflexivity.
    + rewrite map_lookup_imap.
      rewrite lookup_insert_ne by discriminate.
      rewrite lookup_insert_ne by discriminate.
      rewrite lookup_insert_ne by discriminate.
      rewrite lookup_insert_ne by discriminate. reflexivity.
  - repeat (apply map_Forall_insert_2; [cbn; eauto|]). exact Hd.
Qed.

Lemma login_claims_ok (ip nm em : string) (utcnow : Z) :
  claims_ok (<["client_ip" := PStr ip]>
              (<["type" := PStr "access"]>
                (<["iat" := PDatetime utcnow]>
                  (<["name" := PStr nm]>
                    (<["sub" := PStr em]> ∅))))).
Proof.
  unfold claims_ok.
  repeat (apply map_Forall_insert_2; [cbn; eauto|]). apply map_Forall_empty.
Qed.

Lemma login_wrong_password (key : string) (verify : string -> string -> bool)
  (ip username password : string) (now tdef : Q) (utcnow : Z) (env : TokenEnv)
  (st st1 : State) (u : UserDoc) (a : Z) (w : Q) :
  check_rate_limit ip now st = (Ok tt, st1) ->
  login_attempts st1 !! ip = Some (a, w) ->
  find_user (strip (lower username)) (users st) = Some u ->
  verify password (u_hashed_password u) = false ->
  login key verify ip username password now tdef utcnow env st
  = (Raise (HTTPException 401 "Incorrect password"),
     set_login_attempts <[ip := (a + 1, w)]> st1).
Proof.
  intros Hc Hl Hu Hv.
  destruct (check_rate_limit_frame _ _ _ _ _ Hc) as (Hus & _ & _).
  unfold login, reraise_500, bind. rewrite Hc.
  unfold get_user, gets. rewrite Hus, Hu. cbn [hashed_password].
  rewrite Hv. cbn. unfold set_login_attempts. now rewrite Hl.
Qed.

Lemma login_success (key : string) (verify : string -> string -> bool)
  (ip username password : string) (now tdef : Q) (utcnow : Z) (env : TokenEnv)
  (st st1 : State) (u : UserDoc) :
  check_rate_limit ip now st = (Ok tt, st1) ->
  find_user (strip (lower username)) (users st) = Some u ->
  verify password (u_hashed_password u) = true ->
  exists tok,
    login key verify ip username password now tdef utcnow env st
    = (Ok (mkLoginResponse tok "bearer" 1800 (u_email u, u_name u)),
       set_login_attempts (delete ip) st).
Proof.
  intros Hc Hu Hv.
  destruct (check_rate_limit_frame _ _ _ _ _ Hc) as (Hus & _ & _).
  destruct (check_rate_limit_allowed_entry _ _ _ _ Hc) as (a & w & Hl & Hst).
  destruct (create_access_token_ok key _ env
              (login_claims_ok ip (u_name u) (u_email u) utcnow))
    as (payload & Htok & _).
  exists (JWS ALGORITHM key payload).
  unfold login, reraise_500, bind. rewrite Hc.
  unfold get_user, gets. rewrite Hus, Hu. cbn [hashed_password email name].
  rewrite Hv. cbn [negb]. unfold lift. rewrite Htok.
  unfold modify, ret. cbn. unfold set_login_attempts at 1.
  rewrite Hl. rewrite bool_decide_eq_true_2 by eauto.
  rewrite Hst. unfold set_login_attempts. cbn.
  now rewrite delete_insert_eq.
Qed.

(** C2 (amended).  A login that passes the limiter and then fails password
    verification ends with the counter exactly 2 above its previous value
    and the window start unchanged when the address had an entry whose
    window had not elapsed, and with the entry [(2, now)] when the address
    had no entry or its window had elapsed; a login that succeeds leaves no
    entry for the address. *)
Theorem login_counts_failed_password_twice
  (key : string) (verify : string -> string -> bool)
  (ip username password : string) (now tdef : Q) (utcnow : Z) (env : TokenEnv)
  (st : State) (u : UserDoc) :
  find_user (strip (lower username)) (users st) = Some u ->
  (verify password (u_hashed_password u) = false ->
   (forall a w,
      login_attempts st !! ip = Some (a, w) ->
      (now - w <= 60)%Q -> a < 5 ->
      login key verify ip username password now tdef utcnow env st
      = (Raise (HTTPException 401 "Incorrect password"),
         set_login_attempts <[ip := (a + 2, w)]> st))
   /\ ((login_attempts st !! ip = None
        \/ exists a w, login_attempts st !! ip = Some (a, w) /\ (60 < now - w)%Q) ->
       login key verify ip username password now tdef utcnow env st
       = (Raise (HTTPException 401 "Incorrect password"),
          set_login_attempts <[ip := (2, now)]> st)))
  /\ (verify password (u_hashed_password u) = true ->
      forall st1, check_rate_limit ip now st = (Ok tt, st1) ->
      exists resp st',
        login key verify ip username password now tdef utcnow env st
        = (Ok resp, st')
        /\ st' = set_login_attempts (delete ip) st
        /\ login_attempts st' !! ip = None).
Proof.
  intros Hu. split.
  - intros Hv. split.
    + intros a w Hl Hw Ha.
      rewrite (login_wrong_password key verify ip username password now tdef
                 utcnow env st _ u (a + 1) w
                 (check_rate_limit_count ip now st a w Hl Hw Ha)); try assumption.
      * rewrite set_login_attempts_insert2. do 3 f_equal. f_equal. lia.
      * cbn. apply lookup_insert_eq.
    + intros Hstart.
      assert (Hc : check_rate_limit ip now st
                   = (Ok tt, set_login_attempts <[ip := (1, now)]> st)).
      { destruct Hstart as [Hn | (a & w & Hs & Hw)].
        - now apply check_rate_limit_first.
        - now apply (check_rate_limit_reset ip now st a w). }
      rewrite (login_wrong_password key verify ip username password now tdef
                 utcnow env st _ u 1 now Hc); try assumption.
      * now rewrite set_login_attempts_insert2.
      * cbn. apply lookup_insert_eq.
  - intros Hv st1 Hc.
    destruct (login_success key verify ip username password now tdef utcnow env
                st st1 u Hc Hu Hv) as (tok & Hlogin).
    eexists. eexists. split; [exact Hlogin|]. split; [reflexivity|].
    cbn. apply lookup_delete_eq.
Qed.

(** ** Registration *)

Lemma ascii_lower_char_idempotent (c : ascii) :
  ascii_lower_char (ascii_lower_char c) = ascii_lower_char c.
Proof.
  destruct c as [[] [] [] [] [] [] [] []]; reflexivity.
Qed.

Lemma ascii_lower_idempotent (s : string) : ascii_lower (ascii_lower s) = ascii_lower s.
Proof.
  induction s as [|c r IH]; cbn; [reflexivity|].
  now rewrite ascii_lower_char_idempotent, IH.
Qed.

Lemma find_user_app_new (e : string) (docs : list UserDoc) (d : UserDoc) :
  find_user e docs = None -> u_email d = e ->
  find_user e (docs ++ [d]) = Some d.
Proof.
  unfold find_user. intros Hn He.
  induction docs as [|x r IH]; cbn in *.
  - now rewrite He, String.eqb_refl.
  - destruct (String.eqb (u_email x) e); [discriminate | now apply IH].
Qed.

Lemma register_duplicate (hash : string -> res string) (user : UserCreate)
  (utcnow : Z) (st : State) :
  is_Some (find_user (lower (uc_email user)) (users st)) ->
  register hash user utcnow st
  = (Raise (HTTPException 400 "Email already registered"), st).
Proof.
  intros [d Hd]. unfold register, reraise_500, bind, gets. now rewrite Hd.
Qed.

Lemma register_new (hash : string -> res string) (user : UserCreate)
  (utcnow : Z) (st : State) (hashed : string) :
  find_user (lower (uc_email user)) (users st) = None ->
  any_char str_isdigit (uc_password user) = true ->
  any_char str_isupper (uc_password user) = true ->
  hash (uc_password user) = Ok hashed ->
  register hash user utcnow st
  = (Ok (mkRegisterResponse "User created successfully" (lower (uc_email user))),
     set_users (fun docs =>
       docs ++ [mkUserDoc (lower (uc_email user)) (uc_name user) hashed utcnow])%list
       st).
Proof.
  intros Hn Hd Hu Hh. unfold register, reraise_500, bind, gets, lift.
  now rewrite Hn, Hd, Hu, Hh.
Qed.

Lemma register_endpoint_valid (hash : string -> res string)
  (EmailStr : string -> option string) (b : RegisterBody) (user : UserCreate)
  (utcnow : Z) (st : State) :
  validate_UserCreate EmailStr b = Ok user ->
  register_endpoint hash EmailStr b utcnow st = register hash user utcnow st.
Proof.
  intros Hv. unfold register_endpoint, bind, lift. now rewrite Hv.
Qed.

(** C4 (amended).  For every request body that passes the [UserCreate]
    model (accepted e-mail address, name of 2 to 50 characters, password of
    6 to 50 characters), whose password contains a digit and an uppercase
    letter and is accepted by the hasher: when the lowercased address is
    not stored yet, registration succeeds, appends one user document
    holding the lowercased address and returns that address; in every state
    in which that address is stored (the state just produced is one), a
    registration that passes the model with an address that lowercases to
    the same text fails with status 400 "Email already registered" and
    leaves the state unchanged. *)
Theorem register_once_per_lowercased_email
  (hash : string -> res string) (EmailStr : string -> option string)
  (b : RegisterBody) (user : UserCreate) (utcnow : Z) (st : State)
  (hashed : string) :
  validate_UserCreate EmailStr b = Ok user ->
  any_char str_isdigit (uc_password user) = true ->
  any_char str_isupper (uc_password user) = true ->
  hash (uc_password user) = Ok hashed ->
  find_user (lower (uc_email user)) (users st) = None ->
  let stored :=
    mkUserDoc (lower (uc_email user)) (uc_name user) hashed utcnow in
  let st' := set_users (fun docs => docs ++ [stored])%list st in
  register_endpoint hash EmailStr b utcnow st
  = (Ok (mkRegisterResponse "User created successfully" (lower (uc_email user))), st')
  /\ is_Some (find_user (lower (uc_email user)) (users st'))
  /\ forall (b2 : RegisterBody) (user2 : UserCreate) (utcnow2 : Z) (st2 : State),
       validate_UserCreate EmailStr b2 = Ok user2 ->
       lower (uc_email user2) = lower (uc_email user) ->
       is_Some (find_user (lower (uc_email user)) (users st2)) ->
       register_endpoint hash EmailStr b2 utcnow2 st2
       = (Raise (HTTPException 400 "Email already registered"), st2).
Proof.
  intros Hv Hd Hu Hh Hn stored st'. split; [|split].
  - rewrite (register_endpoint_valid hash EmailStr b user utcnow st Hv).
    now apply register_new.
  - exists stored. cbn. now apply find_user_app_new.
  - intros b2 user2 utcnow2 st2 Hv2 Hsame Hst2.
    rewrite (register_endpoint_valid hash EmailStr b2 user2 utcnow2 st2 Hv2).
    apply register_duplicate. now rewrite Hsame.
Qed.

(** C10.  A registration whose password is shorter than 6 or longer than
    50 characters, whose name is shorter than 2 or longer than 50
    characters, or whose e-mail address the model rejects, is refused with
    a request-validation error (status 422) in every state and for every
    password content: neither the duplicate check nor the digit and uppercase checks
    decide the outcome, and the state is unchanged. *)
Theorem register_enforces_model_bounds
  (hash : string -> res string) (EmailStr : string -> option string)
  (b : RegisterBody) (utcnow : Z) (st : State) :
  len (body_password b) < 6 \/ 50 < len (body_password b)
  \/ len (body_name b) < 2 \/ 50 < len (body_name b)
  \/ EmailStr (body_email b) = None ->
  exists fields,
    fields <> []
    /\ validate_UserCreate EmailStr b = Raise (RequestValidationError fields)
    /\ register_endpoint hash EmailStr b utcnow st
       = (Raise (RequestValidationError fields), st).
Proof.
  intros H. unfold register_endpoint, bind, lift, validate_UserCreate, length_within.
  destruct (EmailStr (body_email b)) as [e|];
    destruct (2 <=? len (body_name b)) eqn:N1;
    destruct (len (body_name b) <=? 50) eqn:N2;
    destruct (6 <=? len (body_password b)) eqn:P1;
    destruct (len (body_password b) <=? 50) eqn:P2; cbn;
    try (eexists; split; [|split; reflexivity]; discriminate).
  exfalso. destruct H as [H|[H|[H|[H|H]]]]; try lia. discriminate.
Qed.

(** ** Tokens *)

Lemma timegm_plus_minutes (t m : Z) : timegm (t + minutes m) = timegm t + m * 60.
Proof.
  unfold timegm, minutes. now rewrite Z.div_add by lia.
Qed.

Lemma timegm_mono (a b : Z) : a <= b -> timegm a <= timegm b.
Proof. intros H. unfold timegm. apply Z.div_le_mono; lia. Qed.

Lemma create_access_token_inv (key : string) (data : gmap string pyval)
  (env : TokenEnv) (tok : token) :
  create_access_token key data env = Ok tok ->
  exists payload,
    tok = JWS ALGORITHM key payload
    /\ payload !! "exp" = Some (JInt (timegm (utcnow_expire env) + 1800))
    /\ payload !! "iat" = Some (JInt (timegm (utcnow_iat env)))
    /\ (exists j, payload !! "jti" = Some (JStr j))
    /\ (forall k, k <> "exp" -> k <> "iat" -> k <> "type" -> k <> "jti" ->
          payload !! k = (data !! k) ≫= encode_claim k
          /\ (is_Some (data !! k) -> is_Some (payload !! k))).
Proof.
  unfold create_access_token, encode.
  destruct (bool_decide _) eqn:Hall; [|discriminate].
  apply bool_decide_eq_true_1 in Hall.
  intros H. inversion H; subst; clear H.
  eexists. split; [reflexivity|].
  split; [|split; [|split]].
  - rewrite map_lookup_imap.
    do 3 (rewrite lookup_insert_ne by discriminate).
    rewrite lookup_insert_eq. cbn.
    now rewrite timegm_plus_minutes.
  - rewrite map_lookup_imap.
    do 2 (rewrite lookup_insert_ne by discriminate).
    now rewrite lookup_insert_eq.
  - rewrite map_lookup_imap, lookup_insert_eq. cbn. eauto.
  - intros k N1 N2 N3 N4.
    assert (Hk : forall m : gmap string pyval,
               (<["jti" := PStr (pretty (int (time_jti env)) ++ "_" ++ urandom_hex env)]>
                  (<["type" := PStr "access"]>
                     (<["iat" := PDatetime (utcnow_iat env)]>
                        (<["exp" := PDatetime (utcnow_expire env
                                     + minutes ACCESS_TOKEN_EXPIRE_MINUTES)]> m))))
                 !! k = m !! k).
    { intros m. now do 4 (rewrite lookup_insert_ne by congruence). }
    rewrite map_lookup_imap, Hk. split; [reflexivity|].
    intros [v Hv]. rewrite Hv. cbn.
    apply (Hall k v). now rewrite Hk.
Qed.

Lemma validate_claims_issued (payload : gmap string jval) (utcnow i e : Z)
  (j : string) :
  payload !! "iat" = Some (JInt i) ->
  payload !! "nbf" = None ->
  payload !! "exp" = Some (JInt e) ->
  payload !! "jti" = Some (JStr j) ->
  validate_claims payload utcnow
  = if e <? timegm utcnow then Raise ExpiredSignatureError
    else and_then (validate_aud payload)
           (and_then (validate_sub payload) (validate_at_hash payload)).
Proof.
  intros Hi Hn He Hj.
  unfold validate_claims, validate_iat, validate_nbf, validate_exp, validate_jti.
  rewrite Hi, Hn, He, Hj. cbn.
  destruct (e <? timegm utcnow); [reflexivity|]. cbn.
  destruct (validate_aud payload); [|reflexivity]. cbn.
  now destruct (validate_sub payload).
Qed.

Lemma decode_own_token (key : string) (payload : gmap string jval) (utcnow : Z) :
  decode (JWS ALGORITHM key payload) key [ALGORITHM] utcnow
  = match validate_claims payload utcnow with
    | Ok _ => Ok payload
    | Raise e => Raise e
    end.
Proof.
  unfold decode. rewrite bool_decide_eq_true_2 by constructor.
  now rewrite String.eqb_refl.
Qed.

Lemma get_current_user_valid (key : string) (tok : token) (utcnow : Z)
  (e : string) (st : State) :
  validate_token key tok utcnow = Ok e ->
  get_current_user key tok utcnow st
  = (match find_user e (users st) with
     | Some d => Ok (mkUser (u_email d) (u_name d) (u_hashed_password d))
     | None => Raise (HTTPException 401 "User not found")
     end, st).
Proof.
  intros H. unfold get_current_user, bind, lift, get_user, gets. rewrite H.
  now destruct (find_user e (users st)).
Qed.

Lemma get_current_user_invalid (key : string) (tok : token) (utcnow : Z)
  (e : exn) (st : State) :
  validate_token key tok utcnow = Raise e ->
  get_current_user key tok utcnow st = (Raise e, st).
Proof.
  intros H. unfold get_current_user, bind, lift. now rewrite H.
Qed.

Lemma issued_token_outcome (key : string) (data : gmap string pyval)
  (env : TokenEnv) (tok : token) (utcnow : Z) :
  create_access_token key data env = Ok tok ->
  data !! "nbf" = None ->
  let exp := timegm (utcnow_expire env) + 1800 in
  (exp < timegm utcnow ->
   validate_token key tok utcnow = Raise (HTTPException 401 "Token has expired"))
  /\ (timegm utcnow <= exp ->
      is_Some (data !! "aud") \/ is_Some (data !! "at_hash") ->
      validate_token key tok utcnow
      = Raise (HTTPException 401 "Could not validate credentials"))
  /\ (timegm utcnow <= exp ->
      data !! "aud" = None -> data !! "at_hash" = None ->
      validate_token key tok utcnow
      = match data !! "sub" with
        | Some (PStr e) => Ok e
        | Some (PInt _) => Raise (HTTPException 401 "Could not validate credentials")
        | _ => Raise (HTTPException 401 "Invalid authentication credentials")
        end).
Proof.
  intros Hc Hnbf exp.
  destruct (create_access_token_inv key data env tok Hc)
    as (payload & -> & Hexp & Hiat & (j & Hjti) & Hrest).
  fold exp in Hexp.
  destruct (Hrest "nbf" ltac:(discriminate) ltac:(discriminate)
              ltac:(discriminate) ltac:(discriminate)) as (Pnbf & _).
  destruct (Hrest "aud" ltac:(discriminate) ltac:(discriminate)
              ltac:(discriminate) ltac:(discriminate)) as (Paud & Saud).
  destruct (Hrest "at_hash" ltac:(discriminate) ltac:(discriminate)
              ltac:(discriminate) ltac:(discriminate)) as (Pat & Sat).
  destruct (Hrest "sub" ltac:(discriminate) ltac:(discriminate)
              ltac:(discriminate) ltac:(discriminate)) as (Psub & Ssub).
  rewrite Hnbf in Pnbf. cbn in Pnbf.
  unfold validate_token. rewrite decode_own_token.
  rewrite (validate_claims_issued payload utcnow _ _ j Hiat Pnbf Hexp Hjti).
  split; [|split].
  - intros Hlt. destruct (exp <? timegm utcnow) eqn:E; [reflexivity | lia].
  - intros Hle Hpresent. destruct (exp <? timegm utcnow) eqn:E; [lia|].
    unfold validate_aud, validate_at_hash, validate_sub.
    destruct (payload !! "aud") as [a|] eqn:Ea; [reflexivity|].
    destruct Hpresent as [Hp|Hp].
    { apply Saud in Hp. destruct Hp as [x Hx]. discriminate. }
    apply Sat in Hp. destruct Hp as [x Hx]. rewrite Hx. cbn.
    now destruct (payload !! "sub") as [[?|?]|].
  - intros Hle Haud Hat. destruct (exp <? timegm utcnow) eqn:E; [lia|].
    rewrite Haud in Paud. rewrite Hat in Pat. cbn in Paud, Pat.
    unfold validate_aud, validate_at_hash, validate_sub.
    rewrite Paud, Pat. cbn.
    assert (B : bool_decide ("sub" ∈ time_claims) = false)
      by (vm_compute; reflexivity).
    destruct (data !! "sub") as [[e|z|t]|] eqn:Es; cbn in Psub;
      rewrite ?B in Psub; rewrite Psub; cbn; rewrite ?Psub; reflexivity.
Qed.

(** C5 (amended).  Let [tok] be a token issued by [create_access_token]
    from claims without [nbf], with expiry claim [exp] = issuing second +
    1800.  While the current second is not after [exp] (in particular up to
    30 minutes after issuance) a token issued with a string subject and
    with neither [aud] nor [at_hash] validates and yields that subject;
    once the current second is after [exp] (in particular from 31 minutes
    after issuance) validation fails with "Token has expired"; inside the
    window a token issued without subject fails with "Invalid
    authentication credentials", and a token issued with [aud] or
    [at_hash], a malformed token and a token signed with another key fail
    with "Could not validate credentials"; both differ from the expiry
    error. *)
Theorem token_validation
  (key : string) (data : gmap string pyval) (env : TokenEnv) (tok : token) :
  create_access_token key data env = Ok tok ->
  data !! "nbf" = None ->
  let issued := utcnow_expire env in
  let exp := timegm issued + 1800 in
  (forall e utcnow st,
      data !! "sub" = Some (PStr e) ->
      data !! "aud" = None -> data !! "at_hash" = None ->
      timegm utcnow <= exp ->
      validate_token key tok utcnow = Ok e
      /\ get_current_user key tok utcnow st
         = (match find_user e (users st) with
            | Some d => Ok (mkUser (u_email d) (u_name d) (u_hashed_password d))
            | None => Raise (HTTPException 401 "User not found")
            end, st))
  /\ (forall utcnow, utcnow <= issued + minutes 30 -> timegm utcnow <= exp)
  /\ (forall utcnow st,
        exp < timegm utcnow ->
        validate_token key tok utcnow
        = Raise (HTTPException 401 "Token has expired")
        /\ get_current_user key tok utcnow st
           = (Raise (HTTPException 401 "Token has expired"), st))
  /\ (forall utcnow, issued + minutes 31 <= utcnow -> exp < timegm utcnow)
  /\ (forall utcnow,
        data !! "sub" = None ->
        data !! "aud" = None -> data !! "at_hash" = None ->
        timegm utcnow <= exp ->
        validate_token key tok utcnow
        = Raise (HTTPException 401 "Invalid authentication credentials"))
  /\ (forall utcnow,
        is_Some (data !! "aud") \/ is_Some (data !! "at_hash") ->
        timegm utcnow <= exp ->
        validate_token key tok utcnow
        = Raise (HTTPException 401 "Could not validate credentials"))
  /\ (forall raw utcnow,
        validate_token key (Malformed raw) utcnow
        = Raise (HTTPException 401 "Could not validate credentials"))
  /\ (forall alg other payload utcnow,
        other <> key ->
        validate_token key (JWS alg other payload) utcnow
        = Raise (HTTPException 401 "Could not validate credentials")).
Proof.
  intros Hc Hnbf issued exp.
  pose proof (fun utcnow => issued_token_outcome key data env tok utcnow Hc Hnbf)
    as Hout. cbv zeta in Hout. fold issued in Hout. fold exp in Hout.
  split; [|split; [|split; [|split; [|split; [|split; [|split]]]]]].
  - intros e utcnow st He Haud Hat Hle.
    destruct (Hout utcnow) as (_ & _ & Hv).
    specialize (Hv Hle Haud Hat). rewrite He in Hv.
    split; [exact Hv|]. now apply get_current_user_valid.
  - intros utcnow Hle. pose proof (timegm_mono _ _ Hle) as Hm.
    rewrite timegm_plus_minutes in Hm. unfold exp. lia.
  - intros utcnow st Hlt. destruct (Hout utcnow) as (Hx & _).
    split; [now apply Hx|]. apply get_current_user_invalid. now apply Hx.
  - intros utcnow Hle. pose proof (timegm_mono _ _ Hle) as Hm.
    rewrite timegm_plus_minutes in Hm. unfold exp. lia.
  - intros utcnow Hnone Haud Hat Hle.
    destruct (Hout utcnow) as (_ & _ & Hv).
    specialize (Hv Hle Haud Hat). now rewrite Hnone in Hv.
  - intros utcnow Hpresent Hle. destruct (Hout utcnow) as (_ & Hv & _).
    now apply Hv.
  - reflexivity.
  - intros alg other payload' utcnow Hne.
    unfold validate_token, decode.
    destruct (bool_decide (alg ∈ [ALGORITHM])); cbn; [|reflexivity].
    destruct (String.eqb other key) eqn:E; [|reflexivity].
    apply String.eqb_eq in E. contradiction.
Qed.

(** ** Video store *)

Lemma set_videos_same (st : State) : set_videos (fun _ => videos st) st = st.
Proof. now destruct st. Qed.

Lemma update_one_no_match (filter : VideoDoc -> bool) (s : string)
  (docs : list VideoDoc) :
  Forall (fun d => filter d = false) docs ->
  update_one filter s docs = (mkUpdateResult 0 0, docs).
Proof.
  induction 1 as [|d r Hd _ IH]; cbn; [reflexivity|].
  now rewrite Hd, IH.
Qed.

Lemma update_one_first_match (filter : VideoDoc -> bool) (s : string)
  (pre post : list VideoDoc) (d : VideoDoc) :
  Forall (fun x => filter x = false) pre ->
  filter d = true ->
  update_one filter s (pre ++ d :: post)%list
  = if String.eqb (v_watchStatus d) s
    then (mkUpdateResult 1 0, (pre ++ d :: post)%list)
    else (mkUpdateResult 1 1, (pre ++ set_watchStatus s d :: post)%list).
Proof.
  intros Hpre Hd. induction Hpre as [|x r Hx _ IH]; cbn.
  - rewrite Hd. now destruct (String.eqb (v_watchStatus d) s).
  - rewrite Hx, IH. now destruct (String.eqb (v_watchStatus d) s).
Qed.

(** An update touches at most documents that satisfy the filter. *)
Lemma update_one_scoped (filter : VideoDoc -> bool) (s : string)
  (docs : list VideoDoc) :
  Forall2 (fun d d' => d' = d \/ (filter d = true /\ d' = set_watchStatus s d))
    docs (snd (update_one filter s docs)).
Proof.
  induction docs as [|d r IH]; cbn; [constructor|].
  destruct (filter d) eqn:Hd.
  - destruct (String.eqb (v_watchStatus d) s); cbn.
    + constructor; [now left|]. apply Forall2_same_length_lookup_2; [reflexivity|].
      intros i x y Hx Hy. left. congruence.
    + constructor; [right; now split|]. apply Forall2_same_length_lookup_2; [reflexivity|].
      intros i x y Hx Hy. left. congruence.
  - destruct (update_one filter s r) as [result r'] eqn:E. cbn in *.
    constructor; [now left | exact IH].
Qed.

Lemma update_watch_status_valid (video_id status : string) (user : User)
  (st : State) :
  status ∈ ["watched"; "unwatched"] ->
  update_watch_status video_id status user st
  = let '(result, docs) :=
      update_one (id_and_owner video_id (email user)) status (videos st) in
    (if modified_count result =? 0
     then Raise (HTTPException 404 "Video not found")
     else Ok "Watch status updated",
     set_videos (fun _ => docs) st).
Proof.
  intros Hs. unfold update_watch_status.
  rewrite bool_decide_eq_true_2 by exact Hs. cbn [negb]. unfold bind.
  destruct (update_one _ status (videos st)) as [result docs].
  now destruct (modified_count result =? 0).
Qed.

(** C6.  [update_watch_status] refuses a status other than "watched" and
    "unwatched" with status 400 and the state untouched; with a valid
    status, every document it leaves different from before has both the
    requested id and the caller as owner; and when no document has both
    (also when the id is stored under another owner) it answers 404 and the
    state, that other owner's document included, is unchanged. *)
Theorem update_watch_status_scoped
  (video_id status : string) (user : User) (st : State) :
  (status ∉ ["watched"; "unwatched"] ->
   update_watch_status video_id status user st
   = (Raise (HTTPException 400 "Invalid watch status"), st))
  /\ (status ∈ ["watched"; "unwatched"] ->
      Forall2 (fun d d' =>
                 d' = d
                 \/ (v_id d = video_id /\ v_userId d = email user
                     /\ d' = set_watchStatus status d))
        (videos st) (videos (snd (update_watch_status video_id status user st)))
      /\ (Forall (fun d => ~ (v_id d = video_id /\ v_userId d = email user))
            (videos st) ->
          update_watch_status video_id status user st
          = (Raise (HTTPException 404 "Video not found"), st))).
Proof.
  split.
  - intros Hs. unfold update_watch_status.
    now rewrite bool_decide_eq_false_2 by exact Hs.
  - intros Hs. rewrite (update_watch_status_valid _ _ _ _ Hs). split.
    + pose proof (update_one_scoped (id_and_owner video_id (email user)) status
                    (videos st)) as Hsc.
      destruct (update_one _ status (videos st)) as [result docs]. cbn in *.
      eapply Forall2_impl; [exact Hsc|].
      intros d d' [-> | [Hf ->]]; [now left | right].
      unfold id_and_owner in Hf. apply andb_prop in Hf as [H1 H2].
      apply String.eqb_eq in H1, H2. auto.
    + intros Hnone. rewrite update_one_no_match.
      * cbn. now rewrite set_videos_same.
      * eapply Forall_impl; [exact Hnone|]. intros d Hd. cbn in Hd.
        unfold id_and_owner.
        destruct (String.eqb (v_id d) video_id) eqn:E1; [|reflexivity].
        destruct (String.eqb (v_userId d) (email user)) eqn:E2; [|reflexivity].
        apply String.eqb_eq in E1, E2. tauto.
Qed.

(** C7 (amended).  When the first stored document with the requested id
    and the caller as owner already has the requested (valid) status, in
    particular when it is the caller's only document with that id,
    [update_watch_status] answers 404 "Video not found" and leaves the state
    unchanged: the handler tests the modified count, which is zero. *)
Theorem update_watch_status_same_value_not_found
  (status : string) (user : User) (st : State)
  (pre post : list VideoDoc) (d : VideoDoc) :
  videos st = (pre ++ d :: post)%list ->
  Forall (fun x => ~ (v_id x = v_id d /\ v_userId x = email user)) pre ->
  v_userId d = email user ->
  status ∈ ["watched"; "unwatched"] ->
  v_watchStatus d = status ->
  update_watch_status (v_id d) status user st
  = (Raise (HTTPException 404 "Video not found"), st)
  /\ fst (update_one (id_and_owner (v_id d) (email user)) status (videos st))
     = mkUpdateResult 1 0.
Proof.
  intros Hv Hpre Hown Hs Hsame.
  assert (Hfirst : update_one (id_and_owner (v_id d) (email user)) status (videos st)
                   = (mkUpdateResult 1 0, videos st)).
  { rewrite Hv. rewrite update_one_first_match.
    - rewrite Hsame. now rewrite String.eqb_refl.
    - eapply Forall_impl; [exact Hpre|]. intros x Hx. cbn in Hx.
      unfold id_and_owner.
      destruct (String.eqb (v_id x) (v_id d)) eqn:E1; [|reflexivity].
      destruct (String.eqb (v_userId x) (email user)) eqn:E2; [|reflexivity].
      apply String.eqb_eq in E1, E2. tauto.
    - unfold id_and_owner. rewrite Hown. now rewrite !String.eqb_refl. }
  split.
  - rewrite (update_watch_status_valid _ _ _ _ Hs). rewrite Hfirst. cbn.
    now rewrite set_videos_same.
  - now rewrite Hfirst.
Qed.

(** ** Genre classifier *)

(** C9.  Whatever the title and description and whatever the external
    classifier does, [classify_video_genre] returns a genre and raises
    nothing: the mapped genre of the top label when there is one, and
    "other" when the classifier raised, returned no label, or returned a top
    label outside the mapping.  The record built for a playlist item
    therefore never fails because of the classifier. *)
Theorem classify_video_genre_never_raises
  (classifier : string -> list string -> res (list string))
  (title description : string) :
  let outcome := classifier (title ++ ". " ++ description) candidate_labels in
  (exists g, classify_video_genre classifier title description = Ok g)
  /\ (forall e, outcome = Raise e ->
        classify_video_genre classifier title description = Ok "other")
  /\ (outcome = Ok [] ->
        classify_video_genre classifier title description = Ok "other")
  /\ (forall top rest, outcome = Ok (top :: rest) ->
        genre_mapping !! top = None ->
        classify_video_genre classifier title description = Ok "other")
  /\ (forall top rest g, outcome = Ok (top :: rest) ->
        genre_mapping !! top = Some g ->
        classify_video_genre classifier title description = Ok g)
  /\ (forall now owner vid th,
        exists g,
          youtube_video classifier now owner
            (mkItem (Some (mkSnippet (Some (mkResourceId (Some vid)))
                             (Some title) (Some description)
                             (Some th))))
          = Ok (mkVideoDoc vid title
                  (or_else (th_maxres th)
                     (or_else (th_high th) (or_else (th_medium th) (th_default th))))
                  "youtube" g (BDate now) "unwatched" owner description None)).
Proof.
  intros outcome. unfold classify_video_genre. fold outcome.
  split; [|split; [|split; [|split; [|split]]]].
  - destruct outcome as [[|top rest]|e]; eauto.
  - now intros e ->.
  - now intros ->.
  - intros top rest -> Hn. now rewrite Hn.
  - intros top rest g -> Hg. now rewrite Hg.
  - intros now owner vid th. unfold youtube_video, classify_video_genre. cbn.
    fold outcome. destruct outcome as [[|top rest]|e]; eauto.
Qed.

(** ** YouTube ingestion *)

Lemma add_youtube_playlist_failure_inserts_nothing
  (classifier : string -> list string -> res (list string))
  (youtube : string -> res (Response PlaylistData))
  (url : string) (user : User) (now : Z) (st st' : State) (e : exn) :
  add_youtube_playlist classifier youtube url user now st = (Raise e, st') ->
  videos st' = videos st.
Proof.
  unfold add_youtube_playlist, reraise_500, bind, http_get, lift, raise, modify, ret.
  intros H.
  destruct (negb (contains "list=" url)).
  { cbn in H. inversion H. reflexivity. }
  destruct (youtube _) as [response|e0].
  2:{ destruct (is_http e0); inversion H; reflexivity. }
  destruct (status_code response =? 403).
  { cbn in H. inversion H. reflexivity. }
  destruct (negb (status_code response =? 200)).
  { cbn in H. inversion H. reflexivity. }
  destruct (json response) as [data|e0].
  2:{ destruct (is_http e0); inversion H; reflexivity. }
  destruct (items data) as [[|it its]|].
  1,3: cbn in H; inversion H; reflexivity.
  destruct (for_each _ (it :: its)) as [[|v vs]|e0].
  - cbn in H. inversion H. reflexivity.
  - inversion H.
  - destruct (is_http e0); inversion H; reflexivity.
Qed.

(** C8.  [add_youtube_playlist]: a URL without "list=" gives status 400
    "Invalid YouTube playlist URL" with the state, the log of outbound
    requests included, untouched; after the request for the playlist id, an
    upstream status 403 gives status 403, any other status than 200 gives
    status 400, and a 200 answer whose [items] is empty (or absent) gives
    status 404; and whenever the handler raises anything, the video
    collection is as before. *)
Theorem add_youtube_playlist_errors
  (classifier : string -> list string -> res (list string))
  (youtube : string -> res (Response PlaylistData))
  (url : string) (user : User) (now : Z) (st : State) :
  let playlist_id := hd "" (split "&" (List.last (split "list=" url) "")) in
  let called :=
    log_call (mkHttpCall "https://www.googleapis.com/youtube/v3/playlistItems"
                playlist_id) st in
  (contains "list=" url = false ->
   add_youtube_playlist classifier youtube url user now st
   = (Raise (HTTPException 400 "Invalid YouTube playlist URL"), st))
  /\ (contains "list=" url = true ->
      forall response, youtube playlist_id = Ok response ->
        (status_code response = 403 ->
         add_youtube_playlist classifier youtube url user now st
         = (Raise (HTTPException 403 "YouTube API key is invalid or quota exceeded"),
            called))
        /\ (status_code response <> 403 -> status_code response <> 200 ->
            add_youtube_playlist classifier youtube url user now st
            = (Raise (HTTPException 400
                 "Failed to fetch playlist. Please check the URL and try again."),
               called))
        /\ (status_code response = 200 ->
            forall data, json response = Ok data ->
              items data = Some [] \/ items data = None ->
              add_youtube_playlist classifier youtube url user now st
              = (Raise (HTTPException 404 "No videos found in playlist"), called)))
  /\ (forall e st',
        add_youtube_playlist classifier youtube url user now st = (Raise e, st') ->
        videos st' = videos st).
Proof.
  intros playlist_id called. split; [|split].
  - intros Hc. unfold add_youtube_playlist, reraise_500. now rewrite Hc.
  - intros Hc response Hr.
    unfold add_youtube_playlist, reraise_500, bind, http_get.
    rewrite Hc. cbn [negb]. fold playlist_id. rewrite Hr. fold called.
    split; [|split].
    + intros H403. now rewrite H403.
    + intros H403 H200.
      destruct (status_code response =? 403) eqn:E1; [lia|].
      destruct (status_code response =? 200) eqn:E2; [lia|]. reflexivity.
    + intros H200 data Hj Hi. rewrite H200. cbn. unfold lift. rewrite Hj.
      now destruct Hi as [-> | ->].
  - intros e st'. apply add_youtube_playlist_failure_inserts_nothing.
Qed.

(** ** Stale-video sweeper *)

(** One turn of the sweeper finds exactly the stored documents that are
    unwatched and whose [savedAt] is a date not after [utcnow - 14 days]. *)
Lemma sweep_selects_exactly (utcnow : Z) (st : State) (d : VideoDoc) :
  In d (fst (check_unwatched_videos_once utcnow st))
  <-> In d (videos st)
      /\ v_watchStatus d = "unwatched"
      /\ exists t, v_savedAt d = BDate t /\ t <= utcnow - days 14.
Proof.
  unfold check_unwatched_videos_once. cbn [fst].
  rewrite filter_In. unfold stale_filter. split.
  - intros [Hin Hf]. apply andb_prop in Hf as [Hw Hs].
    apply String.eqb_eq in Hw. split; [exact Hin|]. split; [exact Hw|].
    destruct (v_savedAt d) as [t|s]; [|discriminate].
    exists t. split; [reflexivity | lia].
  - intros (Hin & Hw & t & Ht & Hle). split; [exact Hin|].
    rewrite Hw, Ht. cbn. lia.
Qed.

(** Every document found is passed to the notification collaborator. *)
Lemma sweep_notifies_each (utcnow : Z) (st : State) :
  snd (check_unwatched_videos_once utcnow st)
  = List.map (fun d => send_notification (v_userId d) (v_title d))
      (fst (check_unwatched_videos_once utcnow st)).
Proof. reflexivity. Qed.

(** Each turn of the unrolled loop is one such query at its wake-up. *)
Lemma check_unwatched_videos_turn (wakeups : list (Z * State)) (i : nat)
  (utcnow : Z) (st : State) :
  nth_error wakeups i = Some (utcnow, st) ->
  nth_error (check_unwatched_videos wakeups) i
  = Some (check_unwatched_videos_once utcnow st).
Proof.
  intros H. unfold check_unwatched_videos.
  now rewrite nth_error_map, H.
Qed.

Lemma for_each_Forall {A B} (f : A -> res B) (P : B -> Prop) (l : list A)
  (out : list B) :
  (forall x y, f x = Ok y -> P y) ->
  for_each f l = Ok out -> Forall P out.
Proof.
  intros Hf. revert out. induction l as [|x r IH]; cbn; intros out H.
  - inversion H. constructor.
  - destruct (f x) as [y|e] eqn:Ex; [|discriminate].
    destruct (for_each f r) as [ys|e]; [|discriminate].
    inversion H; subst. constructor; [now apply (Hf x) | now apply IH].
Qed.

Lemma youtube_video_fields
  (classifier : string -> list string -> res (list string))
  (now : Z) (owner : string) (item : Item) (d : VideoDoc) :
  youtube_video classifier now owner item = Ok d ->
  v_savedAt d = BDate now /\ v_watchStatus d = "unwatched" /\ v_userId d = owner.
Proof.
  unfold youtube_video, required. intros H.
  destruct (it_snippet item) as [sn|]; [|discriminate].
  destruct (sn_resourceId sn) as [rid|]; [|discriminate].
  destruct (rid_videoId rid); [|discriminate].
  destruct (sn_title sn); [|discriminate].
  destruct (classify_video_genre _ _ _); [|discriminate].
  destruct (sn_thumbnails sn); [|discriminate].
  inversion H. auto.
Qed.

(** A video ingested from a playlist at [saved], left as ingested, is found
    by every turn of the sweeper that runs 14 days or more later. *)
Lemma youtube_videos_are_swept
  (classifier : string -> list string -> res (list string))
  (youtube : string -> res (Response PlaylistData))
  (url : string) (user : User) (saved : Z) (st st' : State) (r : PlaylistResult) :
  add_youtube_playlist classifier youtube url user saved st = (Ok r, st') ->
  videos st' = (videos st ++ pl_videos r)%list
  /\ forall d utcnow, In d (pl_videos r) -> saved + days 14 <= utcnow ->
       In d (fst (check_unwatched_videos_once utcnow st')).
Proof.
  unfold add_youtube_playlist, reraise_500, bind, http_get, lift, raise, modify, ret.
  intros H.
  destruct (negb (contains "list=" url)); [discriminate|].
  destruct (youtube _) as [response|e0].
  2:{ destruct (is_http e0); discriminate. }
  destruct (status_code response =? 403); [discriminate|].
  destruct (negb (status_code response =? 200)); [discriminate|].
  destruct (json response) as [data|e0].
  2:{ destruct (is_http e0); discriminate. }
  destruct (items data) as [[|it its]|]; try discriminate.
  destruct (for_each _ (it :: its)) as [[|v vs]|e0] eqn:Ef.
  - discriminate.
  - inversion H; subst; clear H. cbn [pl_videos]. split; [reflexivity|].
    intros d utcnow Hin Hle. apply sweep_selects_exactly.
    pose proof (for_each_Forall _ _ _ _
                  (fun x y => youtube_video_fields classifier saved (email user) x y)
                  Ef) as Hall.
    rewrite Forall_forall in Hall. destruct (Hall d) as (Hs & Hw & _).
    { apply list_elem_of_In. exact Hin. }
    split; [cbn; apply in_or_app; now right|].
    split; [exact Hw|]. exists saved. split; [exact Hs | lia].
  - destruct (is_http e0); discriminate.
Qed.

(** A video ingested from Instagram is stored with its [savedAt] as text,
    so no turn of the sweeper finds it, however old it is. *)
Lemma instagram_videos_are_never_swept
  (classifier : string -> list string -> res (list string))
  (instagram : string -> res (Response MediaData))
  (access_token : option string) (isoformat : Z -> string)
  (url : string) (user : User) (saved : Z) (st st' : State) (r : InstagramResult) :
  add_instagram_video classifier instagram access_token isoformat url user saved st
  = (Ok r, st') ->
  exists d,
    videos st' = (videos st ++ [d])%list
    /\ v_platform d = "instagram" /\ v_watchStatus d = "unwatched"
    /\ v_savedAt d = BString (isoformat saved)
    /\ forall utcnow, ~ In d (fst (check_unwatched_videos_once utcnow st')).
Proof.
  unfold add_instagram_video, reraise_500, bind, http_get, lift, raise, modify, ret.
  intros H.
  destruct (negb (match_instagram_url url)); [discriminate|].
  destruct (search_video_id url) as [vid|]; [|discriminate].
  destruct access_token as [[|c tk]|]; try discriminate.
  destruct (instagram vid) as [response|e0].
  2:{ destruct (is_http e0); discriminate. }
  destruct (negb (status_code response =? 200)); [discriminate|].
  destruct (json response) as [data|e0].
  2:{ destruct (is_http e0); discriminate. }
  destruct (negb (bool_decide _)); [discriminate|].
  destruct (classify_video_genre _ _ _) as [g|e0].
  2:{ destruct (is_http e0); discriminate. }
  destruct (required "id" (md_id data)) as [i|e0].
  2:{ destruct (is_http e0); discriminate. }
  destruct (required "permalink" (md_permalink data)) as [pl|e0].
  2:{ destruct (is_http e0); discriminate. }
  inversion H; subst; clear H.
  eexists. split; [reflexivity|]. cbn [v_platform v_watchStatus v_savedAt].
  repeat (split; [reflexivity|]).
  intros utcnow Hin. apply sweep_selects_exactly in Hin.
  destruct Hin as (_ & _ & t & Ht & _). discriminate.
Qed.

(** C3, observed on the code.  A reel ingested through
    [add_instagram_video] at instant 0 is stored, unwatched and owned by the
    caller; the sweeper running 15 days later finds no document and sends
    no notification, while a playlist video ingested at the same instant is
    found. *)
Theorem sweeper_misses_instagram_videos :
  let ingest_reel :=
    add_instagram_video Sample.classifier Sample.instagram_media (Some "token")
      Sample.isoformat "https://instagram.com/reel/ABC123" Sample.alice 0
      Sample.empty in
  let ingest_list :=
    add_youtube_playlist Sample.classifier Sample.youtube_playlist_items
      "https://www.youtube.com/playlist?list=PL1" Sample.alice 0 Sample.empty in
  (exists r d,
      fst ingest_reel = Ok r
      /\ videos (snd ingest_reel) = [d]
      /\ v_platform d = "instagram" /\ v_watchStatus d = "unwatched"
      /\ v_userId d = "alice@example.com")
  /\ check_unwatched_videos_once (days 15) (snd ingest_reel) = ([], [])
  /\ (exists d,
        videos (snd ingest_list) = [d]
        /\ check_unwatched_videos_once (days 15) (snd ingest_list)
           = ([d], ["Sending notification to alice@example.com about First video"])).
Proof.
  cbv zeta. split; [|split].
  - eexists. eexists. vm_compute. repeat split.
  - vm_compute. reflexivity.
  - eexists. vm_compute. split; reflexivity.
Qed.

End Properties.

(** * The properties on the sample deployment *)

Section SampleDeployment.

Existing Instance Sample.runtime.

Example playlist_id_of_url :
  hd "" (split "&" (List.last
           (split "list=" "https://www.youtube.com/playlist?list=PL1&index=2") ""))
  = "PL1".
Proof. reflexivity. Qed.

Example split_like_python : split "ab" "xabyabab" = ["x"; "y"; ""; ""].
Proof. reflexivity. Qed.

Example instagram_reel_id :
  match_instagram_url "https://instagram.com/reel/ABC123" = true
  /\ search_video_id "https://instagram.com/reel/ABC123" = Some "ABC123".
Proof. split; reflexivity. Qed.

Example instagram_profile_url_refused :
  match_instagram_url "https://www.instagram.com/someone/" = false.
Proof. reflexivity. Qed.

Example strip_lower_email : strip (lower "  Alice@Example.COM ") = "alice@example.com".
Proof. reflexivity. Qed.

Example len_counts_characters :
  len "Aé€" = 3 /\ String.length "Aé€" = 6%nat /\ chars "Aé€" = ["A"; "é"; "€"].
Proof. repeat split; reflexivity. Qed.

Example take_cuts_between_characters : take 2 "é€a" = "é€".
Proof. reflexivity. Qed.

Example model_counts_characters :
  length_within 6 50 "€1Abc" = false
  /\ length_within 6 50 ("A1" ++ "éééééééééééééééééééééééééé") = true.
Proof. split; reflexivity. Qed.

Example int_of_str_ascii :
  int_of_str " +1_800 " = Some 1800 /\ int_of_str "-7" = Some (-7)
  /\ int_of_str "1__0" = None /\ int_of_str "" = None.
Proof. repeat split; reflexivity. Qed.

Example int_truncates_toward_zero : int (7 # 2) = 3 /\ int (-7 # 2) = -3.
Proof. split; reflexivity. Qed.

(** Five checks at instants 0, 10, 20, 30, 40: a sixth at instant 50 is
    told to retry in 10 seconds. *)
Lemma rate_limit_sixth_attempt_at_50 :
  let st5 := set_login_attempts <[Sample.ip := (5, 0%Q)]> Sample.empty in
  check_rate_limit_seq Sample.ip [0; 10; 20; 30; 40]%Q Sample.empty = (Ok tt, st5)
  /\ check_rate_limit Sample.ip 50%Q st5
     = (Raise (HTTPException 429
                 "Too many login attempts. Please try again in 10 seconds"), st5).
Proof.
  assert (Hstart : login_attempts Sample.empty !! Sample.ip = None
                   \/ exists a w, login_attempts Sample.empty !! Sample.ip = Some (a, w)
                                  /\ (60 < 0 - w)%Q).
  { left. reflexivity. }
  destruct (rate_limit_sixth_attempt Sample.SECRET_KEY Sample.verify_password
              Sample.ip "alice@example.com" "x" 0%Q 0 Sample.env Sample.empty
              0%Q 10%Q 20%Q 30%Q 40%Q 50%Q Hstart
              ltac:(vm_compute; discriminate) ltac:(vm_compute; discriminate)
              ltac:(vm_compute; discriminate) ltac:(vm_compute; discriminate))
    as (H5 & Hrej & _).
  split; [exact H5|].
  exact (proj1 (Hrej ltac:(vm_compute; discriminate))).
Defined.

(** C2 as stated fails: with 3 attempts recorded in a window opened at
    instant 0, a login at instant 100 with a wrong password leaves the
    entry at (2, 100), not at (5, 0). *)
Lemma login_after_window_restarts_count :
  ~ (forall (key : string) (verify : string -> string -> bool)
       (ip username password : string) (now tdef : Q) (utcnow : Z)
       (env : TokenEnv) (st : State) (u : UserDoc) (a : Z) (w : Q),
       (exists st1, check_rate_limit ip now st = (Ok tt, st1)) ->
       find_user (strip (lower username)) (users st) = Some u ->
       verify password (u_hashed_password u) = false ->
       login_attempts st !! ip = Some (a, w) ->
       login_attempts
         (snd (login key verify ip username password now tdef utcnow env st)) !! ip
       = Some (a + 2, w)).
Proof.
  intros H.
  specialize (H Sample.SECRET_KEY Sample.verify_password Sample.ip
                "Alice@Example.com " "wrong" 100%Q 100%Q 0 Sample.env
                Sample.three_attempts Sample.alice_doc 3 0%Q).
  assert (Hpass : exists st1,
             check_rate_limit Sample.ip 100%Q Sample.three_attempts = (Ok tt, st1)).
  { eexists. vm_compute. reflexivity. }
  specialize (H Hpass eq_refl eq_refl eq_refl).
  vm_compute in H. discriminate H.
Qed.

Lemma login_counts_failed_password_twice_sample :
  login Sample.SECRET_KEY Sample.verify_password Sample.ip "Alice@Example.com "
    "wrong" 30%Q 30%Q 0 Sample.env Sample.three_attempts
  = (Raise (HTTPException 401 "Incorrect password"),
     set_login_attempts <[Sample.ip := (3 + 2, 0%Q)]> Sample.three_attempts).
Proof.
  refine (proj1 (proj1 (login_counts_failed_password_twice Sample.SECRET_KEY
                          Sample.verify_password Sample.ip "Alice@Example.com "
                          "wrong" 30%Q 30%Q 0 Sample.env Sample.three_attempts
                          Sample.alice_doc eq_refl) eq_refl) 3 0%Q eq_refl _ _).
  - vm_compute. discriminate.
  - lia.
Defined.

(** C4 as stated fails: the password "A1" has a digit and an uppercase
    letter, the address is new and the name is within bounds, yet the
    registration is refused. *)
Lemma register_refuses_short_password :
  ~ (forall (hash : string -> res string) (EmailStr : string -> option string)
       (b : RegisterBody) (e h : string) (utcnow : Z) (st : State),
       EmailStr (body_email b) = Some e ->
       length_within 2 50 (body_name b) = true ->
       any_char str_isdigit (body_password b) = true ->
       any_char str_isupper (body_password b) = true ->
       hash (body_password b) = Ok h ->
       find_user (lower e) (users st) = None ->
       exists r st', register_endpoint hash EmailStr b utcnow st = (Ok r, st')).
Proof.
  intros H.
  destruct (H Sample.get_password_hash Sample.EmailStr
              (mkRegisterBody "bob@example.com" "Bob" "A1") "bob@example.com"
              (Sample.hashed "A1") 0 Sample.empty
              eq_refl eq_refl eq_refl eq_refl eq_refl eq_refl)
    as (r & st' & Hr).
  vm_compute in Hr. discriminate Hr.
Qed.

Lemma register_once_per_lowercased_email_sample :
  register_endpoint Sample.get_password_hash Sample.EmailStr
    (mkRegisterBody "Bob@Example.com" "Bob" "Secret1x") 7 Sample.empty
  = (Ok (mkRegisterResponse "User created successfully" "bob@example.com"),
     set_users (fun docs =>
       docs ++ [mkUserDoc "bob@example.com" "Bob"
                  (Sample.hashed "Secret1x") 7])%list Sample.empty).
Proof.
  exact (proj1 (register_once_per_lowercased_email Sample.get_password_hash
                  Sample.EmailStr (mkRegisterBody "Bob@Example.com" "Bob" "Secret1x")
                  (mkUserCreate "Bob@Example.com" "Bob" "Secret1x") 7 Sample.empty
                  (Sample.hashed "Secret1x")
                  eq_refl eq_refl eq_refl eq_refl eq_refl)).
Defined.

Lemma token_validation_sample :
  validate_token Sample.SECRET_KEY Sample.alice_token (minutes 29)
  = Ok "alice@example.com"
  /\ validate_token Sample.SECRET_KEY Sample.alice_token (minutes 31)
     = Raise (HTTPException 401 "Token has expired").
Proof.
  assert (Hissue : create_access_token Sample.SECRET_KEY
                     {[ "sub" := PStr "alice@example.com" ]} Sample.env
                   = Ok Sample.alice_token).
  { vm_compute. reflexivity. }
  destruct (token_validation Sample.SECRET_KEY _ Sample.env Sample.alice_token
              Hissue eq_refl)
    as (Hok & _ & Hexp & _).
  split.
  - refine (proj1 (Hok "alice@example.com" (minutes 29) Sample.empty
                     eq_refl eq_refl eq_refl _)).
    vm_compute. discriminate.
  - refine (proj1 (Hexp (minutes 31) Sample.empty _)). vm_compute. reflexivity.
Defined.

(** C5 as stated fails: a token issued from claims that carry an audience
    is refused within its expiry window, since the handler decodes without
    naming an audience. *)
Lemma issued_token_with_audience_is_refused :
  ~ (forall (key : string) (data : gmap string pyval) (env : TokenEnv)
       (tok : token) (e : string) (utcnow : Z),
       create_access_token key data env = Ok tok ->
       data !! "sub" = Some (PStr e) ->
       timegm utcnow <= timegm (utcnow_expire env) + 1800 ->
       validate_token key tok utcnow = Ok e).
Proof.
  intros H.
  destruct (create_access_token Sample.SECRET_KEY
              {[ "sub" := PStr "alice@example.com"; "aud" := PStr "web" ]}
              Sample.env) as [tok|x] eqn:Hissue.
  - assert (Hwin : timegm (minutes 1) <= timegm (utcnow_expire Sample.env) + 1800).
    { vm_compute. discriminate. }
    specialize (H _ _ _ tok "alice@example.com" (minutes 1) Hissue eq_refl Hwin).
    vm_compute in Hissue. injection Hissue as <-.
    vm_compute in H. discriminate H.
  - vm_compute in Hissue. discriminate Hissue.
Qed.

(** C7 as stated fails: Alice holds two documents with id "v1", the first
    watched and the second unwatched; asking for "unwatched", the current
    status of the second one, succeeds. *)
Lemma update_watch_status_duplicate_succeeds :
  ~ (forall (status : string) (user : User) (st : State) (d : VideoDoc),
       In d (videos st) ->
       v_userId d = email user ->
       status ∈ ["watched"; "unwatched"] ->
       v_watchStatus d = status ->
       fst (update_watch_status (v_id d) status user st)
       = Raise (HTTPException 404 "Video not found")).
Proof.
  intros H.
  specialize (H "unwatched" Sample.alice Sample.ingested_twice
                (mkVideoDoc "v1" "First video" (Some "https://i/hq.jpg") "youtube"
                   "music" (BDate 1) "unwatched" "alice@example.com" "" None)).
  assert (Hin : In (mkVideoDoc "v1" "First video" (Some "https://i/hq.jpg") "youtube"
                      "music" (BDate 1) "unwatched" "alice@example.com" "" None)
                  (videos Sample.ingested_twice)).
  { vm_compute. right. left. reflexivity. }
  assert (Hs : "unwatched" ∈ ["watched"; "unwatched"]) by (right; left).
  specialize (H Hin eq_refl Hs eq_refl).
  vm_compute in H. discriminate H.
Qed.

Lemma update_watch_status_same_value_sample :
  let d := mkVideoDoc "v1" "First video" None "youtube" "music" (BDate 0)
             "unwatched" "alice@example.com" "" None in
  let st := mkState ∅ [] [d] [] in
  update_watch_status "v1" "unwatched" Sample.alice st
  = (Raise (HTTPException 404 "Video not found"), st).
Proof.
  intros d st.
  refine (proj1 (update_watch_status_same_value_not_found "unwatched" Sample.alice
                   st [] [] d eq_refl _ eq_refl _ eq_refl)).
  - constructor.
  - right; left.
Defined.

Lemma register_enforces_model_bounds_sample :
  exists fields,
    fields <> []
    /\ validate_UserCreate Sample.EmailStr
         (mkRegisterBody "bob@example.com" "Bob" "A1")
       = Raise (RequestValidationError fields)
    /\ register_endpoint Sample.get_password_hash Sample.EmailStr
         (mkRegisterBody "bob@example.com" "Bob" "A1") 0 Sample.empty
       = (Raise (RequestValidationError fields), Sample.empty).
Proof.
  apply (register_enforces_model_bounds Sample.get_password_hash Sample.EmailStr
           (mkRegisterBody "bob@example.com" "Bob" "A1") 0 Sample.empty).
  left. vm_compute. reflexivity.
Defined.

End SampleDeployment.

(** * Further properties of the handlers *)

Section FurtherProperties.

Context {R : Runtime}.

(** ** Rate limiter and login *)

(** X1.  A limiter check reads and writes only the entry of the calling
    address: the entries of all other addresses, the collections and the
    request log are as before; a rejected check changes nothing at all, and
    an allowed one always leaves an entry for the address. *)
Theorem check_rate_limit_touches_one_entry (ip : string) (now : Q) (st : State) :
  let r := fst (check_rate_limit ip now st) in
  let st' := snd (check_rate_limit ip now st) in
  users st' = users st /\ videos st' = videos st /\ http_log st' = http_log st
  /\ (forall other, other <> ip ->
        login_attempts st' !! other = login_attempts st !! other)
  /\ (forall e, r = Raise e -> st' = st)
  /\ (r = Ok tt -> is_Some (login_attempts st' !! ip)).
Proof.
  cbv zeta. unfold check_rate_limit.
  destruct (login_attempts st !! ip) as [[a w]|];
    repeat match goal with
      | |- context [if ?b then _ else _] => destruct b
      end; cbn;
    repeat split; auto;
    try (intros other Hne; now rewrite lookup_insert_ne by congruence);
    try (intros e He; discriminate He);
    try (intros _; rewrite lookup_insert_eq; eauto);
    try (intros He; discriminate He).
Qed.

Lemma int_between (x : Q) (hi : Z) :
  (0 <= x)%Q -> (x <= inject_Z hi)%Q -> 0 <= int x <= hi.
Proof.
  destruct x as [n d]. unfold Qle, int, inject_Z. cbn. intros H0 H1.
  assert (Hn : 0 <= n) by lia.
  rewrite Z.quot_div_nonneg by lia. split.
  - apply Z.div_pos; lia.
  - apply Z.div_le_upper_bound; lia.
Qed.

(** X2.  When an address is rejected at an instant not before the start of
    its window, the number of seconds announced in the message lies between
    0 and 60. *)
Theorem rejection_announces_at_most_60_seconds
  (ip : string) (now : Q) (st : State) (a : Z) (w : Q) :
  login_attempts st !! ip = Some (a, w) ->
  5 <= a -> (w <= now)%Q -> (now - w <= 60)%Q ->
  exists time_left,
    0 <= time_left <= 60
    /\ check_rate_limit ip now st
       = (Raise (HTTPException 429
                   ("Too many login attempts. Please try again in "
                      ++ pretty time_left ++ " seconds")), st).
Proof.
  intros Hl Ha Hw H60.
  exists (int (RATE_LIMIT_DURATION - (now - w))). split.
  - apply int_between; unfold RATE_LIMIT_DURATION.
    + lra.
    + change (inject_Z 60) with 60%Q. lra.
  - now apply (check_rate_limit_reject ip now st a w).
Qed.

(** X4.  A login for an address that passes the limiter but names no
    registered user is answered 401 "Email not registered" whatever the
    password; the limiter's own count is the only change, so such a
    request counts once. *)
Theorem login_unknown_email_counts_once
  (key : string) (verify : string -> string -> bool)
  (ip username password : string) (now tdef : Q) (utcnow : Z) (env : TokenEnv)
  (st st1 : State) :
  check_rate_limit ip now st = (Ok tt, st1) ->
  find_user (strip (lower username)) (users st) = None ->
  login key verify ip username password now tdef utcnow env st
  = (Raise (HTTPException 401 "Email not registered"), st1).
Proof.
  intros Hc Hu.
  destruct (check_rate_limit_frame _ _ _ _ _ Hc) as (Hus & _ & _).
  unfold login, reraise_500, bind. rewrite Hc.
  unfold get_user, gets. now rewrite Hus, Hu.
Qed.

Lemma check_rate_limit_other (ip other : string) (now : Q) (st : State) :
  other <> ip ->
  login_attempts (snd (check_rate_limit ip now st)) !! other
  = login_attempts st !! other.
Proof.
  intros Hne. unfold check_rate_limit.
  destruct (login_attempts st !! ip) as [[a w]|];
    repeat match goal with
      | |- context [if ?b then _ else _] => destruct b
      end; cbn; try reflexivity;
    now rewrite lookup_insert_ne by congruence.
Qed.

Lemma login_outcomes (key : string) (verify : string -> string -> bool)
  (ip username password : string) (now tdef : Q) (utcnow : Z) (env : TokenEnv)
  (st : State) :
  let st' := snd (login key verify ip username password now tdef utcnow env st) in
  let st1 := snd (check_rate_limit ip now st) in
  st' = st1
  \/ (exists x, st' = set_login_attempts <[ip := x]> st1)
  \/ st' = set_login_attempts (delete ip) st1.
Proof.
  cbv zeta. unfold login, reraise_500, bind.
  destruct (check_rate_limit ip now st) as [[[]|e] st1] eqn:Hc; cbn [snd].
  2:{ left. now destruct (is_http e). }
  unfold get_user, gets.
  destruct (find_user _ (users st1)) as [u|]; [|left; reflexivity].
  cbn [hashed_password email name].
  destruct (verify password (u_hashed_password u)); cbn [negb].
  - unfold lift.
    destruct (create_access_token key _ env) as [tok|e]; cbn.
    + destruct (check_rate_limit_allowed_entry _ _ _ _ Hc) as (a & w & Hl & _).
      right. right. unfold set_login_attempts. rewrite Hl.
      now rewrite bool_decide_eq_true_2 by eauto.
    + left. now destruct (is_http e).
  - cbn. right. left.
    destruct (default (0, tdef) (login_attempts st1 !! ip)) as [c f] eqn:E.
    exists (c + 1, f). unfold set_login_attempts. now rewrite E.
Qed.

(** X5.  Whatever its outcome, [login] changes nothing but the limiter
    entry of the calling address: users, videos, the request log and the
    entries of all other addresses are as before. *)
Theorem login_touches_one_entry
  (key : string) (verify : string -> string -> bool)
  (ip username password : string) (now tdef : Q) (utcnow : Z) (env : TokenEnv)
  (st : State) :
  let st' := snd (login key verify ip username password now tdef utcnow env st) in
  users st' = users st /\ videos st' = videos st /\ http_log st' = http_log st
  /\ (forall other, other <> ip ->
        login_attempts st' !! other = login_attempts st !! other).
Proof.
  intros st'.
  destruct (check_rate_limit_frame ip now st _ _
              (surjective_pairing (check_rate_limit ip now st)))
    as (Hu & Hv & Hh).
  pose proof (check_rate_limit_other ip) as Ho.
  destruct (login_outcomes key verify ip username password now tdef utcnow env st)
    as [H | [[x H] | H]]; fold st' in H; rewrite H; cbn;
    repeat split; auto; intros other Hne.
  - rewrite lookup_insert_ne by congruence. now apply Ho.
  - rewrite lookup_delete_ne by congruence. now apply Ho.
Qed.

Lemma login_wrong_password_live (key : string) (verify : string -> string -> bool)
  (ip username password : string) (now tdef : Q) (utcnow : Z) (env : TokenEnv)
  (st : State) (u : UserDoc) (a b : Z) (w : Q) :
  login_attempts st !! ip = Some (a, w) ->
  (now - w <= 60)%Q -> a < 5 -> b = a + 2 ->
  find_user (strip (lower username)) (users st) = Some u ->
  verify password (u_hashed_password u) = false ->
  login key verify ip username password now tdef utcnow env st
  = (Raise (HTTPException 401 "Incorrect password"),
     set_login_attempts <[ip := (b, w)]> st).
Proof.
  intros Hl Hw Ha -> Hu Hv.
  rewrite (login_wrong_password key verify ip username password now tdef
             utcnow env st _ u (a + 1) w
             (check_rate_limit_count ip now st a w Hl Hw Ha)); try assumption.
  - rewrite set_login_attempts_insert2. do 3 f_equal. f_equal. lia.
  - cbn. apply lookup_insert_eq.
Qed.

(** X3.  Because a wrong password is counted twice, three logins with a
    wrong password from an address without entry, all within 60 seconds of
    the first, leave the entry at [(6, t1)]; a fourth login inside that
    window is then rejected with status 429 whatever password it carries,
    the right one included, and changes nothing. *)
Theorem three_wrong_passwords_lock_out
  (key : string) (verify : string -> string -> bool)
  (ip username p1 p2 p3 : string) (t1 t2 t3 t4 : Q) (utcnow : Z) (env : TokenEnv)
  (st : State) (u : UserDoc) :
  login_attempts st !! ip = None ->
  find_user (strip (lower username)) (users st) = Some u ->
  verify p1 (u_hashed_password u) = false ->
  verify p2 (u_hashed_password u) = false ->
  verify p3 (u_hashed_password u) = false ->
  (t2 - t1 <= 60)%Q -> (t3 - t1 <= 60)%Q -> (t4 - t1 <= 60)%Q ->
  let st3 := login_seq key verify ip username [(p1, t1); (p2, t2); (p3, t3)]
               utcnow env st in
  st3 = set_login_attempts <[ip := (6, t1)]> st
  /\ forall password,
       login key verify ip username password t4 t4 utcnow env st3
       = (Raise (HTTPException 429
                   (too_many_detail (int (60 - (t4 - t1))))), st3).
Proof.
  intros Hn Hu V1 V2 V3 H2 H3 H4 st3.
  assert (E3 : st3 = set_login_attempts <[ip := (6, t1)]> st).
  { unfold st3. cbn [login_seq].
    rewrite (login_wrong_password key verify ip username p1 t1 t1 utcnow env st
               _ u 1 t1 (check_rate_limit_first ip t1 st Hn)); try assumption.
    2:{ cbn. apply lookup_insert_eq. }
    cbn [snd]. rewrite set_login_attempts_insert2.
    rewrite (login_wrong_password_live key verify ip username p2 t2 t2 utcnow env
               _ u 2 4 t1); try assumption; try lia.
    2:{ cbn. apply lookup_insert_eq. }
    cbn [snd]. rewrite set_login_attempts_insert2.
    rewrite (login_wrong_password_live key verify ip username p3 t3 t3 utcnow env
               _ u 4 6 t1); try assumption; try lia.
    2:{ cbn. apply lookup_insert_eq. }
    cbn [snd]. now rewrite set_login_attempts_insert2. }
  split; [exact E3|].
  intros password. apply login_rate_limited; [|reflexivity].
  apply (check_rate_limit_reject ip t4 st3 6 t1); try assumption.
  - rewrite E3. cbn. apply lookup_insert_eq.
  - unfold MAX_ATTEMPTS. lia.
Qed.

Lemma find_user_email (e : string) (docs : list UserDoc) (u : UserDoc) :
  find_user e docs = Some u -> u_email u = e /\ In u docs.
Proof.
  unfold find_user. intros H. apply find_some in H as [Hin He].
  apply String.eqb_eq in He. auto.
Qed.

(** X6.  Registration followed by login: when the hasher verifies what it
    hashed, a user who has just registered logs in with the registered
    password under any spelling of the address that lowercases and trims to
    the stored one, from any address the limiter lets through; the answer
    names the stored address and name, and the limiter entry is cleared. *)
Theorem register_then_login
  (key : string) (hash : string -> res string) (verify : string -> string -> bool)
  (EmailStr : string -> option string)
  (b : RegisterBody) (user : UserCreate) (utcnow : Z) (st : State)
  (ip username : string) (now tdef : Q) (utcnow2 : Z) (env : TokenEnv)
  (st2 : State) (hashed : string) :
  (forall p h, hash p = Ok h -> verify p h = true) ->
  validate_UserCreate EmailStr b = Ok user ->
  any_char str_isdigit (uc_password user) = true ->
  any_char str_isupper (uc_password user) = true ->
  hash (uc_password user) = Ok hashed ->
  find_user (lower (uc_email user)) (users st) = None ->
  strip (lower username) = lower (uc_email user) ->
  let st1 := snd (register_endpoint hash EmailStr b utcnow st) in
  check_rate_limit ip now st1 = (Ok tt, st2) ->
  exists tok,
    login key verify ip username (uc_password user) now tdef utcnow2 env st1
    = (Ok (mkLoginResponse tok "bearer" 1800
             (lower (uc_email user), uc_name user)),
       set_login_attempts (delete ip) st1).
Proof.
  intros Hhash Hv Hd Hup Hh Hnew Hname st1 Hc.
  assert (E1 : st1 = set_users (fun docs =>
             docs ++ [mkUserDoc (lower (uc_email user)) (uc_name user)
                        hashed utcnow])%list st).
  { unfold st1. rewrite (register_endpoint_valid hash EmailStr b user utcnow st Hv).
    now rewrite (register_new hash user utcnow st hashed). }
  apply (login_success key verify ip username (uc_password user) now tdef utcnow2
           env st1 st2
           (mkUserDoc (lower (uc_email user)) (uc_name user) hashed utcnow) Hc).
  - rewrite Hname, E1. cbn. now apply find_user_app_new.
  - cbn. now apply Hhash.
Qed.

Lemma issued_token_validates (key : string) (data : gmap string pyval)
  (env : TokenEnv) (tok : token) (e : string) (utcnow : Z) :
  create_access_token key data env = Ok tok ->
  data !! "sub" = Some (PStr e) ->
  data !! "nbf" = None -> data !! "aud" = None -> data !! "at_hash" = None ->
  utcnow <= utcnow_expire env + minutes 30 ->
  validate_token key tok utcnow = Ok e.
Proof.
  intros Hc He Hnbf Haud Hat Hle.
  pose proof (timegm_mono _ _ Hle) as Hm. rewrite timegm_plus_minutes in Hm.
  destruct (issued_token_outcome key data env tok utcnow Hc Hnbf) as (_ & _ & H).
  rewrite (H Hm Haud Hat). now rewrite He.
Qed.

Lemma login_ok_inv (key : string) (verify : string -> string -> bool)
  (ip username password : string) (now tdef : Q) (utcnow : Z) (env : TokenEnv)
  (st st' : State) (resp : LoginResponse) :
  login key verify ip username password now tdef utcnow env st = (Ok resp, st') ->
  exists u data,
    find_user (strip (lower username)) (users st) = Some u
    /\ verify password (u_hashed_password u) = true
    /\ data !! "sub" = Some (PStr (u_email u))
    /\ data !! "nbf" = None /\ data !! "aud" = None /\ data !! "at_hash" = None
    /\ create_access_token key data env = Ok (access_token resp)
    /\ resp_user resp = (u_email u, u_name u)
    /\ users st' = users st.
Proof.
  intros H.
  assert (Hus : users st' = users st).
  { destruct (check_rate_limit_frame ip now st _ _
                (surjective_pairing (check_rate_limit ip now st))) as (Hu1 & _).
    destruct (login_outcomes key verify ip username password now tdef utcnow env st)
      as [E | [[x E] | E]]; rewrite H in E; cbn [snd] in E; rewrite E;
      exact Hu1. }
  revert H. unfold login, reraise_500, bind.
  destruct (check_rate_limit ip now st) as [[[]|e] st1] eqn:Hc.
  2:{ destruct (is_http e); discriminate. }
  destruct (check_rate_limit_frame _ _ _ _ _ Hc) as (Hus1 & _ & _).
  unfold get_user, gets. rewrite Hus1.
  destruct (find_user _ (users st)) as [u|] eqn:Hu; [|discriminate].
  cbn [hashed_password email name].
  destruct (verify password (u_hashed_password u)) eqn:Hv; cbn [negb];
    [|discriminate].
  unfold lift.
  destruct (create_access_token key _ env) as [tok|e] eqn:Ht.
  2:{ destruct (is_http e); discriminate. }
  cbn. intros H. inversion H; subst; clear H.
  exists u. eexists. split; [reflexivity|]. split; [exact Hv|].
  split; [|split; [|split; [|split;
    [|split; [exact Ht|split; [reflexivity | exact Hus]]]]]].
  - do 4 (rewrite lookup_insert_ne by discriminate). apply lookup_insert_eq.
  - do 5 (rewrite lookup_insert_ne by discriminate). apply lookup_empty.
  - do 5 (rewrite lookup_insert_ne by discriminate). apply lookup_empty.
  - do 5 (rewrite lookup_insert_ne by discriminate). apply lookup_empty.
Qed.

(** X7.  Login followed by an authenticated request: the token a
    successful login returns resolves, at every instant up to 30 minutes
    after it was issued, to the stored user the login matched, with the
    address and name the login answer showed. *)
Theorem login_token_resolves_user
  (key : string) (verify : string -> string -> bool)
  (ip username password : string) (now tdef : Q) (utcnow : Z) (env : TokenEnv)
  (st st' : State) (resp : LoginResponse) (utcnow2 : Z) :
  login key verify ip username password now tdef utcnow env st = (Ok resp, st') ->
  utcnow2 <= utcnow_expire env + minutes 30 ->
  exists u,
    In u (users st)
    /\ resp_user resp = (u_email u, u_name u)
    /\ get_current_user key (access_token resp) utcnow2 st'
       = (Ok (mkUser (u_email u) (u_name u) (u_hashed_password u)), st').
Proof.
  intros H Hle.
  destruct (login_ok_inv _ _ _ _ _ _ _ _ _ _ _ _ H)
    as (u & data & Hu & _ & Hsub & Hnbf & Haud & Hat & Htok & Hresp & Hus).
  destruct (find_user_email _ _ _ Hu) as (He & Hin).
  exists u. split; [exact Hin|]. split; [exact Hresp|].
  rewrite (get_current_user_valid key _ utcnow2 (u_email u) st'
             (issued_token_validates key data env _ _ utcnow2 Htok Hsub
                Hnbf Haud Hat Hle)).
  rewrite Hus.
  replace (find_user (u_email u) (users st)) with (Some u) by (now rewrite He).
  reflexivity.
Qed.

(** ** Token issue *)

Lemma issued_claims_lookup (data : gmap string pyval) (env : TokenEnv) (k : string) :
  k <> "exp" -> k <> "iat" -> k <> "type" -> k <> "jti" ->
  (<["jti" := PStr (pretty (int (time_jti env)) ++ "_" ++ urandom_hex env)]>
     (<["type" := PStr "access"]>
        (<["iat" := PDatetime (utcnow_iat env)]>
           (<["exp" := PDatetime (utcnow_expire env
                                  + minutes ACCESS_TOKEN_EXPIRE_MINUTES)]> data))))
    !! k = data !! k.
Proof.
  intros. now do 4 (rewrite lookup_insert_ne by congruence).
Qed.

(** X8.  [create_access_token] answers 500 "Could not create access token"
    exactly when the caller's claims hold a [datetime] under a key other
    than exp, iat, type, jti and nbf.  Otherwise it issues an HS256 token
    whose exp, iat, type and jti are the handler's own, overriding what the
    caller supplied under those keys, and whose other claims are the
    caller's. *)
Theorem create_access_token_outcome
  (key : string) (data : gmap string pyval) (env : TokenEnv) :
  let allowed := ["exp"; "iat"; "type"; "jti"; "nbf"] in
  ((exists k t, data !! k = Some (PDatetime t) /\ k ∉ allowed) ->
   create_access_token key data env
   = Raise (HTTPException 500 "Could not create access token"))
  /\ ((forall k t, data !! k = Some (PDatetime t) -> k ∈ allowed) ->
      exists payload,
        create_access_token key data env = Ok (JWS "HS256" key payload)
        /\ payload !! "exp" = Some (JInt (timegm (utcnow_expire env) + 1800))
        /\ payload !! "iat" = Some (JInt (timegm (utcnow_iat env)))
        /\ payload !! "type" = Some (JStr "access")
        /\ payload !! "jti"
           = Some (JStr (pretty (int (time_jti env)) ++ "_" ++ urandom_hex env))
        /\ forall k, k ∉ ["exp"; "iat"; "type"; "jti"] ->
             payload !! k = (data !! k) ≫= encode_claim k).
Proof.
  intros allowed. split.
  - intros (k & t & Hk & Hout).
    assert (Hne : k <> "exp" /\ k <> "iat" /\ k <> "type" /\ k <> "jti" /\ k <> "nbf").
    { unfold allowed in Hout. rewrite !not_elem_of_cons in Hout. tauto. }
    destruct Hne as (N1 & N2 & N3 & N4 & N5).
    unfold create_access_token, encode.
    rewrite bool_decide_eq_false_2; [reflexivity|].
    intros Hall. specialize (Hall k (PDatetime t)). cbn beta in Hall.
    rewrite issued_claims_lookup in Hall by assumption.
    specialize (Hall Hk). cbn in Hall.
    rewrite bool_decide_eq_false_2 in Hall.
    + destruct Hall as [x Hx]. discriminate.
    + unfold time_claims. rewrite !not_elem_of_cons. repeat split; auto.
      apply not_elem_of_nil.
  - intros Hin. unfold create_access_token, encode.
    rewrite bool_decide_eq_true_2.
    + eexists. split; [reflexivity|].
      split; [|split; [|split; [|split]]].
      * rewrite map_lookup_imap.
        do 3 (rewrite lookup_insert_ne by discriminate).
        rewrite lookup_insert_eq. cbn. now rewrite timegm_plus_minutes.
      * rewrite map_lookup_imap.
        do 2 (rewrite lookup_insert_ne by discriminate).
        now rewrite lookup_insert_eq.
      * rewrite map_lookup_imap.
        do 1 (rewrite lookup_insert_ne by discriminate).
        now rewrite lookup_insert_eq.
      * rewrite map_lookup_imap. now rewrite lookup_insert_eq.
      * intros k Hk. rewrite map_lookup_imap.
        rewrite !not_elem_of_cons in Hk.
        rewrite issued_claims_lookup; [reflexivity| | | |]; tauto.
    + intros k v Hkv. cbn beta.
      destruct (decide (k = "jti")) as [->|N4].
      { rewrite lookup_insert_eq in Hkv. inversion Hkv. cbn. eauto. }
      rewrite lookup_insert_ne in Hkv by congruence.
      destruct (decide (k = "type")) as [->|N3].
      { rewrite lookup_insert_eq in Hkv. inversion Hkv. cbn. eauto. }
      rewrite lookup_insert_ne in Hkv by congruence.
      destruct (decide (k = "iat")) as [->|N2].
      { rewrite lookup_insert_eq in Hkv. inversion Hkv. cbn. eauto. }
      rewrite lookup_insert_ne in Hkv by congruence.
      destruct (decide (k = "exp")) as [->|N1].
      { rewrite lookup_insert_eq in Hkv. inversion Hkv. cbn. eauto. }
      rewrite lookup_insert_ne in Hkv by congruence.
      destruct v as [s|z|t]; cbn; eauto.
      specialize (Hin k t Hkv). unfold allowed in Hin.
      rewrite !elem_of_cons, elem_of_nil in Hin.
      assert (k = "nbf") as -> by tauto.
      cbn. eauto.
Qed.

(** ** Registration *)

Lemma find_user_none (e : string) (docs : list UserDoc) :
  find_user e docs = None -> ~ In e (List.map u_email docs).
Proof.
  unfold find_user. intros Hn Hin. apply in_map_iff in Hin as (d & He & Hd).
  pose proof (find_none _ _ Hn d Hd) as Hf. cbn in Hf.
  rewrite He, String.eqb_refl in Hf. discriminate.
Qed.

Lemma validate_UserCreate_fields (EmailStr : string -> option string)
  (b : RegisterBody) (user : UserCreate) :
  validate_UserCreate EmailStr b = Ok user ->
  uc_name user = body_name b /\ uc_password user = body_password b.
Proof.
  unfold validate_UserCreate.
  destruct (_ ++ _)%list; destruct (EmailStr (body_email b));
    intros H; inversion H; auto.
Qed.

Lemma register_endpoint_outcomes (hash : string -> res string)
  (EmailStr : string -> option string) (b : RegisterBody) (utcnow : Z) (st : State) :
  (exists e, register_endpoint hash EmailStr b utcnow st = (Raise e, st)
             /\ ((exists fields, e = RequestValidationError fields)
                 \/ (exists detail, e = HTTPException 400 detail)
                 \/ (exists x,
                       hash (body_password b) = Raise x
                       /\ e = if is_http x then x
                              else HTTPException 500
                                     "An unexpected error occurred during registration")))
  \/ (exists user hashed,
        validate_UserCreate EmailStr b = Ok user
        /\ find_user (lower (uc_email user)) (users st) = None
        /\ any_char str_isdigit (uc_password user) = true
        /\ any_char str_isupper (uc_password user) = true
        /\ hash (body_password b) = Ok hashed
        /\ register_endpoint hash EmailStr b utcnow st
           = (Ok (mkRegisterResponse "User created successfully"
                    (lower (uc_email user))),
              set_users (fun docs =>
                docs ++ [mkUserDoc (lower (uc_email user)) (uc_name user)
                           hashed utcnow])%list st)).
Proof.
  destruct (validate_UserCreate EmailStr b) as [user|e] eqn:Hv.
  - rewrite (register_endpoint_valid hash EmailStr b user utcnow st Hv).
    destruct (validate_UserCreate_fields EmailStr b user Hv) as (_ & Hp).
    destruct (find_user (lower (uc_email user)) (users st)) as [d|] eqn:Hf.
    { left. eexists. split; [apply register_duplicate; eauto|]. right. left. eauto. }
    destruct (any_char str_isdigit (uc_password user)) eqn:Hd.
    2:{ left. unfold register, reraise_500, bind, gets. rewrite Hf, Hd. cbn.
        eexists. split; [reflexivity|]. right. left. eauto. }
    destruct (any_char str_isupper (uc_password user)) eqn:Hu.
    2:{ left. unfold register, reraise_500, bind, gets. rewrite Hf, Hd, Hu. cbn.
        eexists. split; [reflexivity|]. right. left. eauto. }
    destruct (hash (uc_password user)) as [hashed|x] eqn:Hh.
    + right. exists user, hashed. rewrite <- Hp.
      repeat split; auto. now apply register_new.
    + left. unfold register, reraise_500, bind, gets, lift.
      rewrite Hf, Hd, Hu, Hh. cbn. rewrite <- Hp, Hh.
      destruct (is_http x) eqn:E; eexists; (split; [reflexivity|]);
        right; right; exists x; rewrite E; auto.
  - left. exists e. unfold register_endpoint, bind, lift. rewrite Hv.
    split; [reflexivity|]. left.
    unfold validate_UserCreate in Hv.
    destruct (_ ++ _)%list; destruct (EmailStr (body_email b));
      inversion Hv; eauto.
Qed.

(** X9.  Registration keeps the user collection normalized: if every
    stored address is lowercase and no address is stored twice, the same
    holds after any registration request, accepted or refused.  Lowercasing
    is taken to be idempotent, as [str.lower] is. *)
Theorem register_keeps_emails_normalized
  (hash : string -> res string) (EmailStr : string -> option string)
  (b : RegisterBody) (utcnow : Z) (st : State) :
  (forall s, lower (lower s) = lower s) ->
  emails_normalized st ->
  emails_normalized (snd (register_endpoint hash EmailStr b utcnow st)).
Proof.
  intros Hidem [Hlow Hnd].
  destruct (register_endpoint_outcomes hash EmailStr b utcnow st)
    as [(e & -> & _) | (user & hashed & _ & Hf & _ & _ & _ & ->)]; [now split|].
  cbn [snd]. unfold emails_normalized. cbn. split.
  - apply Forall_app. split; [exact Hlow|].
    constructor; [|constructor]. cbn. apply Hidem.
  - rewrite map_app. cbn. apply NoDup_app. split; [exact Hnd|]. split.
    + intros x Hx Hin. apply list_elem_of_In in Hx.
      apply list_elem_of_singleton in Hin. subst x.
      now apply (find_user_none _ _ Hf).
    + apply NoDup_singleton.
Qed.

(** X10.  A refused registration changes nothing.  Its answer is a
    request-validation error, a status 400, or, when the hasher refuses the
    password, what the handler makes of the hasher's exception: status 500
    "An unexpected error occurred during registration" unless that
    exception is itself an [HTTPException].  An accepted registration
    appends exactly one user document, carrying the address it returns and
    the hash the hasher gave for the password, and leaves the stored users,
    the limiter, the videos and the request log as they were. *)
Theorem register_outcome_frame
  (hash : string -> res string) (EmailStr : string -> option string)
  (b : RegisterBody) (utcnow : Z) (st : State) :
  let r := fst (register_endpoint hash EmailStr b utcnow st) in
  let st' := snd (register_endpoint hash EmailStr b utcnow st) in
  (forall e, r = Raise e ->
     st' = st
     /\ ((exists fields, e = RequestValidationError fields)
         \/ (exists detail, e = HTTPException 400 detail)
         \/ (exists x,
               hash (body_password b) = Raise x
               /\ e = if is_http x then x
                      else HTTPException 500
                             "An unexpected error occurred during registration")))
  /\ (forall resp, r = Ok resp ->
        exists d,
          users st' = (users st ++ [d])%list
          /\ u_email d = reg_email resp
          /\ hash (body_password b) = Ok (u_hashed_password d)
          /\ login_attempts st' = login_attempts st
          /\ videos st' = videos st /\ http_log st' = http_log st).
Proof.
  cbv zeta.
  destruct (register_endpoint_outcomes hash EmailStr b utcnow st)
    as [(e & -> & He) | (user & hashed & Hv & _ & _ & _ & Hh & ->)]; cbn [fst snd].
  - split.
    + intros e' H. inversion H; subst. auto.
    + intros resp H. discriminate.
  - split.
    + intros e H. discriminate.
    + intros resp H. inversion H; subst; clear H. eexists.
      split; [reflexivity|]. cbn. repeat split. exact Hh.
Qed.

(** ** Authenticated endpoints and the video list *)

Lemma validate_claims_raises (payload : gmap string jval) (utcnow : Z) (e : exn) :
  validate_claims payload utcnow = Raise e ->
  e = JWTError \/ e = ExpiredSignatureError.
Proof.
  unfold validate_claims, and_then, validate_iat, validate_nbf, validate_exp,
    validate_aud, validate_sub, validate_jti, validate_at_hash.
  intros H. repeat case_match; simplify_eq; auto.
Qed.

Lemma validate_token_raises_401 (key : string) (tok : token) (utcnow : Z) (e : exn) :
  validate_token key tok utcnow = Raise e ->
  exists detail, e = HTTPException 401 detail.
Proof.
  unfold validate_token, decode.
  destruct tok as [alg k payload | raw]; [|intros H; inversion H; eauto].
  destruct (negb (bool_decide (alg ∈ [ALGORITHM]))); [intros H; inversion H; eauto|].
  destruct (negb (String.eqb k key)); [intros H; inversion H; eauto|].
  destruct (validate_claims payload utcnow) as [[]|x] eqn:Ev.
  - destruct (payload !! "sub") as [[s|z]|]; intros H; inversion H; eauto.
  - destruct (validate_claims_raises payload utcnow x Ev) as [-> | ->];
      intros H; inversion H; eauto.
Qed.

(** X11.  An endpoint behind [Depends(get_current_user)] either is refused
    with status 401 before its handler runs, the state untouched, or runs
    its handler with a stored user whose address is the token's subject;
    no other outcome exists. *)
Theorem authenticated_gate {A : Type}
  (key : string) (tok : token) (utcnow : Z) (handler : User -> M A) (st : State) :
  (exists detail,
      authenticated key tok utcnow handler st
      = (Raise (HTTPException 401 detail), st))
  \/ (exists d,
        In d (users st)
        /\ validate_token key tok utcnow = Ok (u_email d)
        /\ authenticated key tok utcnow handler st
           = handler (mkUser (u_email d) (u_name d) (u_hashed_password d)) st).
Proof.
  unfold authenticated, bind.
  destruct (validate_token key tok utcnow) as [e|x] eqn:Hv.
  - rewrite (get_current_user_valid key tok utcnow e st Hv).
    destruct (find_user e (users st)) as [d|] eqn:Hf.
    + right. exists d. destruct (find_user_email _ _ _ Hf) as (He & Hin).
      rewrite He. auto.
    + left. eauto.
  - rewrite (get_current_user_invalid key tok utcnow x st Hv).
    destruct (validate_token_raises_401 _ _ _ _ Hv) as (detail & ->).
    left. eauto.
Qed.

(** X12.  [get_videos] never fails and never changes the state.  It lists
    one entry per stored document of the caller, in store order and with
    the same id, title and watch status; every entry is owned by the caller
    and carries [savedAt] as text. *)
Theorem get_videos_lists_own_videos
  (isoformat : Z -> string) (user : User) (st : State) :
  exists vids,
    get_videos isoformat user st = (Ok vids, st)
    /\ Forall (fun v => v_userId v = email user
                        /\ exists s, v_savedAt v = BString s) vids
    /\ Forall2 (fun d v => v_id v = v_id d /\ v_title v = v_title d
                           /\ v_watchStatus v = v_watchStatus d
                           /\ v_platform v = v_platform d)
         (List.filter (fun d => String.eqb (v_userId d) (email user)) (videos st))
         vids.
Proof.
  eexists. split; [reflexivity|]. split.
  - apply Forall_forall. intros v Hv. apply list_elem_of_In in Hv.
    apply in_map_iff in Hv as (d & <- & Hd).
    apply filter_In in Hd as [_ Ho]. apply String.eqb_eq in Ho.
    destruct (v_savedAt d) as [t|s] eqn:E; cbn; rewrite ?E; eauto.
  - induction (List.filter _ (videos st)) as [|d r IH]; cbn; constructor.
    + now destruct (v_savedAt d).
    + exact IH.
Qed.

(** ** Genre classifier *)

(** X13.  Every genre [classify_video_genre] returns is one of the ten
    internal genres or "other", whatever labels the classifier produces. *)
Theorem classify_video_genre_range
  (classifier : string -> list string -> res (list string))
  (title description g : string) :
  classify_video_genre classifier title description = Ok g ->
  g ∈ genres.
Proof.
  unfold classify_video_genre, genres.
  destruct (classifier _ candidate_labels) as [[|top rest]|e]; intros H;
    inversion H; subst; clear H; try solve [repeat constructor].
  destruct (genre_mapping !! top) as [x|] eqn:E; cbn; [|repeat constructor].
  apply elem_of_list_to_map_2 in E.
  repeat (apply elem_of_cons in E as [E|E];
          [inversion E; subst; solve [repeat constructor]|]).
  now apply elem_of_nil in E.
Qed.

(** ** YouTube ingestion *)

Lemma for_each_Forall2 {A B} (f : A -> res B) (rel : A -> B -> Prop) (l : list A)
  (out : list B) :
  (forall x y, f x = Ok y -> rel x y) ->
  for_each f l = Ok out -> Forall2 rel l out.
Proof.
  intros Hf. revert out. induction l as [|x r IH]; cbn; intros out H.
  - inversion H. constructor.
  - destruct (f x) as [y|e] eqn:Ex; [|discriminate].
    destruct (for_each f r) as [ys|e]; [|discriminate].
    inversion H; subst. constructor; [now apply Hf | now apply IH].
Qed.

Lemma for_each_raises {A B} (f : A -> res B) (l : list A) (x : A) (e0 : exn) :
  In x l -> f x = Raise e0 ->
  exists y e, In y l /\ f y = Raise e /\ for_each f l = Raise e.
Proof.
  induction l as [|a r IH]; cbn; [tauto|]. intros Hin Hx.
  destruct (f a) as [b|e] eqn:Ea.
  - destruct Hin as [->|Hin]; [congruence|].
    destruct (IH Hin Hx) as (y & e & Hy & Hfy & Hr).
    exists y, e. rewrite Hr. auto.
  - exists a, e. auto.
Qed.

Lemma youtube_video_inv
  (classifier : string -> list string -> res (list string))
  (now : Z) (owner : string) (item : Item) (d : VideoDoc) :
  youtube_video classifier now owner item = Ok d ->
  exists sn rid th,
    it_snippet item = Some sn
    /\ sn_resourceId sn = Some rid /\ rid_videoId rid = Some (v_id d)
    /\ sn_title sn = Some (v_title d)
    /\ sn_thumbnails sn = Some th
    /\ v_description d = default "" (sn_description sn)
    /\ v_thumbnail d
       = or_else (th_maxres th)
           (or_else (th_high th) (or_else (th_medium th) (th_default th)))
    /\ v_platform d = "youtube" /\ v_originalUrl d = None.
Proof.
  unfold youtube_video, required. intros H.
  destruct (it_snippet item) as [sn|]; [|discriminate].
  destruct (sn_resourceId sn) as [rid|] eqn:E0; [|discriminate].
  destruct (rid_videoId rid) eqn:E1; [|discriminate].
  destruct (sn_title sn) eqn:E2; [|discriminate].
  destruct (classify_video_genre _ _ _); [|discriminate].
  destruct (sn_thumbnails sn) as [th|] eqn:E3; [|discriminate].
  inversion H. exists sn, rid, th. cbn. rewrite E0, E1, E2, E3.
  repeat split; reflexivity.
Qed.

Lemma youtube_video_raises
  (classifier : string -> list string -> res (list string))
  (now : Z) (owner : string) (item : Item) (e : exn) :
  youtube_video classifier now owner item = Raise e ->
  exists k,
    e = KeyError k
    /\ k ∈ ["snippet"; "resourceId"; "videoId"; "title"; "thumbnails"].
Proof.
  unfold youtube_video, required.
  destruct (it_snippet item) as [sn|].
  2:{ intros H. inversion H. eexists. split; [reflexivity|]. repeat constructor. }
  destruct (sn_resourceId sn) as [rid|].
  2:{ intros H. inversion H. eexists. split; [reflexivity|]. repeat constructor. }
  destruct (rid_videoId rid).
  2:{ intros H. inversion H. eexists. split; [reflexivity|]. repeat constructor. }
  destruct (sn_title sn) as [title|].
  2:{ intros H. inversion H. eexists. split; [reflexivity|]. repeat constructor. }
  unfold classify_video_genre.
  destruct (classifier _ candidate_labels) as [[|top rest]|e0];
    (destruct (sn_thumbnails sn);
     [discriminate
     | intros H; inversion H; eexists; split; [reflexivity|]; repeat constructor]).
Qed.

(** X14.  A successful playlist ingestion made exactly one upstream
    request, received status 200 with a non-empty item list, and appended
    one document per item, in item order, after the documents already
    stored: each carries its item's video id and title, the caller as
    owner, platform "youtube", status "unwatched" and the ingestion instant;
    the reported count is the number of items. *)
Theorem add_youtube_playlist_success
  (classifier : string -> list string -> res (list string))
  (youtube : string -> res (Response PlaylistData))
  (url : string) (user : User) (now : Z) (st st' : State) (r : PlaylistResult) :
  add_youtube_playlist classifier youtube url user now st = (Ok r, st') ->
  let playlist_id := hd "" (split "&" (List.last (split "list=" url) "")) in
  exists response data its,
    youtube playlist_id = Ok response /\ status_code response = 200
    /\ json response = Ok data /\ items data = Some its /\ its <> []
    /\ pl_count r = Z.of_nat (length its)
    /\ videos st' = (videos st ++ pl_videos r)%list
    /\ http_log st'
       = (http_log st
          ++ [mkHttpCall "https://www.googleapis.com/youtube/v3/playlistItems"
                playlist_id])%list
    /\ users st' = users st /\ login_attempts st' = login_attempts st
    /\ Forall2 (fun it v =>
                  exists sn rid, it_snippet it = Some sn
                    /\ sn_resourceId sn = Some rid
                    /\ rid_videoId rid = Some (v_id v)
                    /\ sn_title sn = Some (v_title v)
                    /\ v_userId v = email user /\ v_platform v = "youtube"
                    /\ v_watchStatus v = "unwatched" /\ v_savedAt v = BDate now)
         its (pl_videos r).
Proof.
  intros H playlist_id.
  unfold add_youtube_playlist, reraise_500, bind, http_get, lift, raise, modify, ret
    in H.
  fold playlist_id in H.
  destruct (negb (contains "list=" url)); [discriminate|].
  destruct (youtube playlist_id) as [response|e0] eqn:Hy.
  2:{ destruct (is_http e0); discriminate. }
  destruct (status_code response =? 403) eqn:E403; [discriminate|].
  destruct (status_code response =? 200) eqn:E200; cbn [negb] in H; [|discriminate].
  destruct (json response) as [data|e0] eqn:Hj.
  2:{ destruct (is_http e0); discriminate. }
  destruct (items data) as [[|it its]|] eqn:Hi; try discriminate.
  destruct (for_each _ (it :: its)) as [[|v vs]|e0] eqn:Ef.
  - discriminate.
  - inversion H; subst; clear H. cbn [pl_videos pl_count].
    assert (HF : Forall2 (fun it v =>
                  exists sn rid, it_snippet it = Some sn
                    /\ sn_resourceId sn = Some rid
                    /\ rid_videoId rid = Some (v_id v)
                    /\ sn_title sn = Some (v_title v)
                    /\ v_userId v = email user /\ v_platform v = "youtube"
                    /\ v_watchStatus v = "unwatched" /\ v_savedAt v = BDate now)
                  (it :: its) (v :: vs)).
    { eapply for_each_Forall2; [|exact Ef]. intros x y Hxy. cbn beta.
      destruct (youtube_video_inv _ _ _ _ _ Hxy)
        as (sn & rid & th & H1 & H0 & H2 & H3 & _ & _ & _ & H4 & _).
      destruct (youtube_video_fields _ _ _ _ _ Hxy) as (F1 & F2 & F3).
      exists sn, rid. auto 10. }
    exists response, data, (it :: its).
    repeat split; auto; try lia; try discriminate.
    rewrite (Forall2_length _ _ _ HF). reflexivity.
  - destruct (is_http e0); discriminate.
Qed.

(** X15.  A playlist answer in which any item lacks its snippet, the
    snippet's resourceId, the video id inside it, the title or the
    thumbnails makes the whole request fail with status 500 naming a
    missing key, after the upstream request, and none of the items is
    stored. *)
Theorem add_youtube_playlist_malformed_item
  (classifier : string -> list string -> res (list string))
  (youtube : string -> res (Response PlaylistData))
  (url : string) (user : User) (now : Z) (st : State)
  (response : Response PlaylistData) (data : PlaylistData) (its : list Item)
  (bad : Item) :
  let playlist_id := hd "" (split "&" (List.last (split "list=" url) "")) in
  contains "list=" url = true ->
  youtube playlist_id = Ok response -> status_code response = 200 ->
  json response = Ok data -> items data = Some its ->
  In bad its ->
  (it_snippet bad = None
   \/ exists sn, it_snippet bad = Some sn
        /\ (sn_resourceId sn = None
            \/ (exists rid, sn_resourceId sn = Some rid /\ rid_videoId rid = None)
            \/ sn_title sn = None \/ sn_thumbnails sn = None)) ->
  exists k,
    k ∈ ["snippet"; "resourceId"; "videoId"; "title"; "thumbnails"]
    /\ add_youtube_playlist classifier youtube url user now st
       = (Raise (HTTPException 500 ("An error occurred: '" ++ k ++ "'")),
          log_call (mkHttpCall "https://www.googleapis.com/youtube/v3/playlistItems"
                      playlist_id) st).
Proof.
  intros playlist_id Hc Hy H200 Hj Hi Hin Hbad.
  assert (Hraise : exists e, youtube_video classifier now (email user) bad = Raise e).
  { unfold youtube_video, required.
    destruct Hbad as [-> | (sn & -> & Hsn)]; [eauto|].
    destruct (sn_resourceId sn) as [rid|]; [|eauto].
    destruct (rid_videoId rid) eqn:Ev; [|eauto].
    destruct (sn_title sn); [|eauto].
    destruct (classify_video_genre _ _ _); [|eauto].
    destruct (sn_thumbnails sn); [|eauto].
    destruct Hsn as [H|[(rid' & H & H')|[H|H]]]; try discriminate.
    inversion H; subst. congruence. }
  destruct Hraise as (e0 & He0).
  destruct (for_each_raises _ its bad e0 Hin He0) as (y & e & _ & Hy' & Hfe).
  destruct (youtube_video_raises _ _ _ _ _ Hy') as (k & -> & Hk).
  exists k. split; [exact Hk|].
  unfold add_youtube_playlist, reraise_500, bind, http_get, lift, raise.
  rewrite Hc. cbn [negb]. fold playlist_id. rewrite Hy, H200. cbn.
  rewrite Hj, Hi.
  destruct its as [|it its']; [destruct Hin|].
  now rewrite Hfe.
Qed.

Lemma contains_char_list (c : ascii) (l : list ascii) :
  Forall (fun x => x <> c) l ->
  contains (String c EmptyString) (string_of_list_ascii l) = false.
Proof.
  induction 1 as [|x r Hx _ IH]; cbn; [reflexivity|].
  destruct (Ascii.eqb c x) eqn:E.
  - apply Ascii.eqb_eq in E. congruence.
  - exact IH.
Qed.

Lemma first_piece_has_no_separator (c : ascii) (s : string) (cur : list ascii) :
  Forall (fun x => x <> c) cur ->
  contains (String c EmptyString)
    (hd "" (split_aux (String c EmptyString) O cur s)) = false.
Proof.
  revert cur. induction s as [|a r IH]; intros cur Hcur; cbn.
  - apply contains_char_list. now apply Forall_rev.
  - destruct (Ascii.eqb c a) eqn:E; cbn.
    + apply contains_char_list. now apply Forall_rev.
    + apply IH. constructor; [|exact Hcur].
      apply Ascii.eqb_neq in E. congruence.
Qed.

(** X16.  Whatever URL passes the "list=" test, the handler makes exactly
    one upstream request, and the playlist id it sends contains no "&";
    this holds for every outcome of the request. *)
Theorem add_youtube_playlist_requests_clean_id
  (classifier : string -> list string -> res (list string))
  (youtube : string -> res (Response PlaylistData))
  (url : string) (user : User) (now : Z) (st : State) :
  contains "list=" url = true ->
  exists playlist_id,
    contains "&" playlist_id = false
    /\ http_log (snd (add_youtube_playlist classifier youtube url user now st))
       = (http_log st
          ++ [mkHttpCall "https://www.googleapis.com/youtube/v3/playlistItems"
                playlist_id])%list.
Proof.
  intros Hc.
  exists (hd "" (split "&" (List.last (split "list=" url) ""))). split.
  - apply first_piece_has_no_separator. constructor.
  - unfold add_youtube_playlist, reraise_500, bind, http_get, lift, raise, modify, ret.
    rewrite Hc. cbn [negb].
    destruct (youtube _) as [response|e0].
    2:{ now destruct (is_http e0). }
    destruct (status_code response =? 403); [reflexivity|].
    destruct (negb (status_code response =? 200)); [reflexivity|].
    destruct (json response) as [data|e0].
    2:{ now destruct (is_http e0). }
    destruct (items data) as [[|it its]|]; try reflexivity.
    destruct (for_each _ (it :: its)) as [[|v vs]|e0]; try reflexivity.
    now destruct (is_http e0).
Qed.

(** ** Instagram ingestion *)

Lemma span_id_chars (s : string) : any (fun c => negb (is_id_char c)) (span_id s) = false.
Proof.
  induction s as [|c r IH]; cbn; [reflexivity|].
  destruct (is_id_char c) eqn:E; cbn; [|reflexivity]. now rewrite E.
Qed.

Lemma reel_or_p_id (s i : string) :
  reel_or_p s = Some i ->
  i <> "" /\ any (fun c => negb (is_id_char c)) i = false.
Proof.
  unfold reel_or_p.
  assert (Htail : forall t,
            match strip_prefix "/" t with
            | Some u => match span_id u with "" => None | i0 => Some i0 end
            | None => None
            end = Some i ->
            i <> "" /\ any (fun c => negb (is_id_char c)) i = false).
  { intros t. destruct (strip_prefix "/" t) as [u|]; [|discriminate].
    pose proof (span_id_chars u) as Hs.
    destruct (span_id u) as [|c r]; [discriminate|].
    intros H. inversion H; subst. split; [discriminate | exact Hs]. }
  destruct (strip_prefix "reel" s) as [t|]; [apply Htail|].
  destruct (strip_prefix "p" s) as [t|]; [apply Htail | discriminate].
Qed.

Lemma search_video_id_id (url i : string) :
  search_video_id url = Some i ->
  i <> "" /\ any (fun c => negb (is_id_char c)) i = false.
Proof.
  induction url as [|c r IH]; cbn.
  - discriminate.
  - destruct (strip_prefix "/" (String c r)) as [t|].
    + destruct (reel_or_p t) as [j|] eqn:E.
      * intros H. inversion H; subst. now apply (reel_or_p_id t).
      * exact IH.
    + exact IH.
Qed.

Lemma append_cons (a : ascii) (p s : string) : String a p ++ s = String a (p ++ s).
Proof. reflexivity. Qed.

Lemma startswith_drop (p s : string) :
  startswith p s = true -> s = p ++ drop (String.length p) s.
Proof.
  revert s. induction p as [|a p IH]; intros s; cbn; [reflexivity|].
  destruct s as [|b s]; [discriminate|].
  destruct (Ascii.eqb a b) eqn:E; [|discriminate].
  apply Ascii.eqb_eq in E. subst b. intros H.
  rewrite append_cons. f_equal. now apply IH.
Qed.

Lemma strip_prefix_Some (p s t : string) :
  strip_prefix p s = Some t -> s = p ++ t.
Proof.
  unfold strip_prefix. destruct (startswith p s) eqn:E; [|discriminate].
  intros H. inversion H; subst. now apply startswith_drop.
Qed.

Lemma opt_prefix_cases (p s : string) :
  s = p ++ opt_prefix p s \/ s = opt_prefix p s.
Proof.
  unfold opt_prefix. destruct (startswith p s) eqn:E; [left|right; reflexivity].
  now apply startswith_drop.
Qed.

Lemma search_video_id_cons (c : ascii) (r : string) :
  search_video_id (String c r)
  = match match strip_prefix "/" (String c r) with
          | Some t => reel_or_p t
          | None => None
          end with
    | Some i => Some i
    | None => search_video_id r
    end.
Proof. reflexivity. Qed.

Lemma strip_slash (t : string) : strip_prefix "/" (String "/" t) = Some t.
Proof. reflexivity. Qed.

Lemma search_video_id_after (pre t : string) :
  is_Some (reel_or_p t) -> is_Some (search_video_id (pre ++ String "/" t)).
Proof.
  intros [i Hi]. induction pre as [|c r IH].
  - change ("" ++ String "/" t) with (String "/" t).
    rewrite search_video_id_cons, strip_slash, Hi. eauto.
  - rewrite append_cons, search_video_id_cons.
    destruct (match strip_prefix "/" (String c (r ++ String "/" t)) with
              | Some t0 => reel_or_p t0
              | None => None
              end); [eauto | exact IH].
Qed.


Lemma match_instagram_url_search (url : string) :
  match_instagram_url url = true -> is_Some (search_video_id url).
Proof.
  unfold match_instagram_url. intros H.
  destruct (strip_prefix "http" url) as [s1|] eqn:E1; [|discriminate].
  destruct (strip_prefix "://" (opt_prefix "s" s1)) as [s2|] eqn:E2; [|discriminate].
  destruct (strip_prefix "instagram.com/" (opt_prefix "www." s2)) as [s3|] eqn:E3;
    [|discriminate].
  apply bool_decide_eq_true_1 in H.
  apply strip_prefix_Some in E1, E2, E3.
  assert (Hurl : exists pre, url = pre ++ String "/" s3).
  { pose proof (opt_prefix_cases "s" s1) as C1.
    pose proof (opt_prefix_cases "www." s2) as C2.
    remember (opt_prefix "s" s1) as o1 eqn:R1.
    remember (opt_prefix "www." s2) as o2 eqn:R2.
    clear R1 R2.
    destruct C1 as [C1|C1]; destruct C2 as [C2|C2]; subst.
    - exists "https://www.instagram.com". reflexivity.
    - exists "https://instagram.com". reflexivity.
    - exists "http://www.instagram.com". reflexivity.
    - exists "http://instagram.com". reflexivity. }
  destruct Hurl as (pre & ->).
  now apply search_video_id_after.
Qed.

(** X17.  Every URL that [add_instagram_video] accepts yields a video id:
    the search that follows the match always finds one, and the id is a
    non-empty run of letters, digits, "_" and "-". *)
Theorem accepted_instagram_url_has_id (url : string) :
  match_instagram_url url = true ->
  exists i,
    search_video_id url = Some i
    /\ i <> "" /\ any (fun c => negb (is_id_char c)) i = false.
Proof.
  intros H. destruct (match_instagram_url_search url H) as [i Hi].
  exists i. split; [exact Hi|].
  destruct (search_video_id_id url i Hi) as [Hne Hchars]. now split.
Qed.

Lemma add_instagram_video_failure_inserts_nothing
  (classifier : string -> list string -> res (list string))
  (instagram : string -> res (Response MediaData))
  (access_token : option string) (isoformat : Z -> string)
  (url : string) (user : User) (now : Z) (st st' : State) (e : exn) :
  add_instagram_video classifier instagram access_token isoformat url user now st
  = (Raise e, st') ->
  videos st' = videos st.
Proof.
  unfold add_instagram_video, reraise_500, bind, http_get, lift, raise, modify, ret.
  intros H.
  destruct (negb (match_instagram_url url)).
  { cbn in H. inversion H. reflexivity. }
  destruct (search_video_id url) as [vid|].
  2:{ cbn in H. inversion H. reflexivity. }
  destruct access_token as [[|c tk]|].
  1,3: cbn in H; inversion H; reflexivity.
  destruct (instagram vid) as [response|e0].
  2:{ destruct (is_http e0); inversion H; reflexivity. }
  destruct (negb (status_code response =? 200)).
  { cbn in H. inversion H. reflexivity. }
  destruct (json response) as [data|e0].
  2:{ destruct (is_http e0); inversion H; reflexivity. }
  destruct (negb (bool_decide _)).
  { cbn in H. inversion H. reflexivity. }
  destruct (classify_video_genre _ _ _) as [g|e0].
  2:{ destruct (is_http e0); inversion H; reflexivity. }
  destruct (required "id" (md_id data)) as [i|e0].
  2:{ destruct (is_http e0); inversion H; reflexivity. }
  destruct (required "permalink" (md_permalink data)) as [pl|e0].
  2:{ destruct (is_http e0); inversion H; reflexivity. }
  inversion H.
Qed.

(** X18.  [add_instagram_video]: a URL outside the accepted pattern gives
    status 400 whether or not an access token is configured; an accepted
    URL without a configured (non-empty) token gives status 501; in both
    cases no upstream request is made and the state is untouched.  After
    the request, an upstream status other than 200 gives status 400, and so
    does a media type other than VIDEO and REELS, a missing one included.
    Whenever the handler raises, the video collection is as before. *)
Theorem add_instagram_video_errors
  (classifier : string -> list string -> res (list string))
  (instagram : string -> res (Response MediaData))
  (access_token : option string) (isoformat : Z -> string)
  (url : string) (user : User) (now : Z) (st : State) :
  let run :=
    add_instagram_video classifier instagram access_token isoformat url user now st in
  (match_instagram_url url = false ->
   run = (Raise (HTTPException 400 "Invalid Instagram URL"), st))
  /\ (match_instagram_url url = true ->
      access_token = None \/ access_token = Some "" ->
      run = (Raise (HTTPException 501
               "Instagram integration requires API setup. Please configure INSTAGRAM_ACCESS_TOKEN in .env"),
             st))
  /\ (match_instagram_url url = true ->
      forall c tk vid response,
        access_token = Some (String c tk) ->
        search_video_id url = Some vid ->
        instagram vid = Ok response ->
        let called :=
          log_call (mkHttpCall "https://graph.instagram.com/v12.0/" vid) st in
        (status_code response <> 200 ->
         run = (Raise (HTTPException 400
                  "Failed to fetch Instagram video. Please check the URL and try again."),
                called))
        /\ (status_code response = 200 ->
            forall data, json response = Ok data ->
              md_media_type data <> Some "VIDEO" ->
              md_media_type data <> Some "REELS" ->
              run = (Raise (HTTPException 400 "URL must point to a video or reel"),
                     called)))
  /\ (forall e st', run = (Raise e, st') -> videos st' = videos st).
Proof.
  intros run. split; [|split; [|split]].
  - intros Hm. unfold run, add_instagram_video, reraise_500. now rewrite Hm.
  - intros Hm Htok. destruct (match_instagram_url_search url Hm) as [vid Hv].
    unfold run, add_instagram_video, reraise_500, bind, lift.
    rewrite Hm, Hv. cbn [negb]. now destruct Htok as [-> | ->].
  - intros Hm c tk vid response -> Hv Hr called.
    unfold run, add_instagram_video, reraise_500, bind, lift, http_get.
    rewrite Hm, Hv. cbn [negb]. rewrite Hr. fold called. split.
    + intros Hs. destruct (status_code response =? 200) eqn:E; [lia|]. reflexivity.
    + intros Hs data Hj Hv1 Hv2. rewrite Hs. cbn. rewrite Hj.
      rewrite bool_decide_eq_false_2; [reflexivity|].
      rewrite !elem_of_cons, elem_of_nil. intros [E|[E|[]]]; congruence.
  - intros e st'. apply add_instagram_video_failure_inserts_nothing.
Qed.





(** ** Watch status and sweeper *)

Lemma id_and_owner_none (video_id owner : string) (docs : list VideoDoc) :
  Forall (fun x => ~ (v_id x = video_id /\ v_userId x = owner)) docs ->
  Forall (fun x => id_and_owner video_id owner x = false) docs.
Proof.
  intros H. eapply Forall_impl; [exact H|]. intros x Hx. cbn in Hx.
  unfold id_and_owner.
  destruct (String.eqb (v_id x) video_id) eqn:E1; [|reflexivity].
  destruct (String.eqb (v_userId x) owner) eqn:E2; [|reflexivity].
  apply String.eqb_eq in E1, E2. tauto.
Qed.

Lemma update_watch_status_changes (status : string) (user : User) (st : State)
  (pre post : list VideoDoc) (d : VideoDoc) :
  videos st = (pre ++ d :: post)%list ->
  Forall (fun x => ~ (v_id x = v_id d /\ v_userId x = email user)) pre ->
  v_userId d = email user ->
  status ∈ ["watched"; "unwatched"] ->
  v_watchStatus d <> status ->
  update_watch_status (v_id d) status user st
  = (Ok "Watch status updated",
     set_videos (fun _ => pre ++ set_watchStatus status d :: post)%list st).
Proof.
  intros Hv Hpre Hown Hs Hne.
  rewrite (update_watch_status_valid _ _ _ _ Hs). rewrite Hv.
  rewrite update_one_first_match.
  - apply String.eqb_neq in Hne. now rewrite Hne.
  - now apply id_and_owner_none.
  - unfold id_and_owner. rewrite Hown. now rewrite !String.eqb_refl.
Qed.

(** X20.  When the first stored document with the requested id and the
    caller as owner has another status than the (valid) requested one, the
    update succeeds and changes the watch status of that document and
    nothing else; the same request sent again is then answered 404 and
    changes nothing. *)
Theorem update_watch_status_then_repeat
  (status : string) (user : User) (st : State)
  (pre post : list VideoDoc) (d : VideoDoc) :
  videos st = (pre ++ d :: post)%list ->
  Forall (fun x => ~ (v_id x = v_id d /\ v_userId x = email user)) pre ->
  v_userId d = email user ->
  status ∈ ["watched"; "unwatched"] ->
  v_watchStatus d <> status ->
  let st' := set_videos (fun _ => pre ++ set_watchStatus status d :: post)%list st in
  update_watch_status (v_id d) status user st = (Ok "Watch status updated", st')
  /\ update_watch_status (v_id d) status user st'
     = (Raise (HTTPException 404 "Video not found"), st').
Proof.
  intros Hv Hpre Hown Hs Hne st'. split.
  - now apply update_watch_status_changes.
  - rewrite (update_watch_status_valid _ _ _ _ Hs).
    change (videos st') with (pre ++ set_watchStatus status d :: post)%list.
    change (v_id d) with (v_id (set_watchStatus status d)).
    rewrite update_one_first_match.
    + cbn [v_watchStatus set_watchStatus]. rewrite String.eqb_refl. cbn.
      unfold st', set_videos. reflexivity.
    + now apply id_and_owner_none.
    + unfold id_and_owner. cbn. rewrite Hown. now rewrite !String.eqb_refl.
Qed.

Lemma filter_app_cons {A} (f : A -> bool) (pre post : list A) (x : A) :
  List.filter f (pre ++ x :: post)
  = (List.filter f pre ++ (if f x then [x] else []) ++ List.filter f post)%list.
Proof.
  rewrite List.filter_app. cbn. now destruct (f x).
Qed.

(** X21.  Marking a video watched takes exactly that document out of what
    the sweeper finds: after the update a turn of the sweeper finds the
    documents it would have found before, in the same order, without the
    updated one. *)
Theorem watched_video_leaves_the_sweep
  (user : User) (st : State) (pre post : list VideoDoc) (d : VideoDoc)
  (utcnow : Z) :
  videos st = (pre ++ d :: post)%list ->
  Forall (fun x => ~ (v_id x = v_id d /\ v_userId x = email user)) pre ->
  v_userId d = email user ->
  v_watchStatus d <> "watched" ->
  let stale := stale_filter (utcnow - days 14) in
  let st' := snd (update_watch_status (v_id d) "watched" user st) in
  fst (update_watch_status (v_id d) "watched" user st) = Ok "Watch status updated"
  /\ fst (check_unwatched_videos_once utcnow st)
     = (List.filter stale pre ++ (if stale d then [d] else [])
        ++ List.filter stale post)%list
  /\ fst (check_unwatched_videos_once utcnow st')
     = (List.filter stale pre ++ List.filter stale post)%list.
Proof.
  intros Hv Hpre Hown Hne stale st'.
  assert (Hs : "watched" ∈ ["watched"; "unwatched"]) by constructor.
  unfold st'.
  rewrite (update_watch_status_changes "watched" user st pre post d Hv Hpre Hown Hs Hne).
  cbn [fst snd]. split; [reflexivity|].
  unfold check_unwatched_videos_once. cbn [fst videos set_videos]. fold stale.
  rewrite Hv, !filter_app_cons. split; [reflexivity|].
  unfold stale at 2. unfold stale_filter. cbn. reflexivity.
Qed.

(** X22.  The sweeper only finds unwatched documents, and it keeps finding
    them: a document found by one turn is found, and notified again, by
    every later turn in whose state it is still stored. *)
Theorem sweeper_keeps_notifying
  (utcnow utcnow' : Z) (st st' : State) (d : VideoDoc) :
  In d (fst (check_unwatched_videos_once utcnow st)) ->
  utcnow <= utcnow' ->
  In d (videos st') ->
  v_watchStatus d = "unwatched"
  /\ In d (fst (check_unwatched_videos_once utcnow' st'))
  /\ In (send_notification (v_userId d) (v_title d))
        (snd (check_unwatched_videos_once utcnow' st')).
Proof.
  intros Hin Hle Hst'.
  apply sweep_selects_exactly in Hin as (_ & Hw & t & Ht & Hold).
  assert (Hin' : In d (fst (check_unwatched_videos_once utcnow' st'))).
  { apply sweep_selects_exactly. split; [exact Hst'|]. split; [exact Hw|].
    exists t. split; [exact Ht | lia]. }
  split; [exact Hw|]. split; [exact Hin'|].
  rewrite sweep_notifies_each.
  apply in_map_iff. exists d. auto.
Qed.

(** ** Port selection *)

Lemma is_port_in_use_in_range (in_use : Z -> bool) (port : Z) :
  0 <= port <= 65535 -> is_port_in_use in_use port = Ok (in_use port).
Proof.
  intros H. unfold is_port_in_use.
  destruct (0 <=? port) eqn:E1; [|lia]. destruct (port <=? 65535) eqn:E2; [|lia].
  reflexivity.
Qed.

Lemma is_port_in_use_out_of_range (in_use : Z -> bool) (port : Z) :
  port < 0 \/ 65535 < port ->
  is_port_in_use in_use port = Raise (OtherError "bind(): port must be 0-65535.").
Proof.
  intros H. unfold is_port_in_use.
  destruct (0 <=? port) eqn:E1; [|reflexivity].
  destruct (port <=? 65535) eqn:E2; [lia|]. reflexivity.
Qed.

Lemma find_port_loop_ends (in_use : Z -> bool) (fuel : nat) (port attempts : Z) :
  (Z.to_nat attempts <= fuel)%nat ->
  is_Some (find_port_loop in_use fuel port attempts).
Proof.
  revert port attempts. induction fuel as [|fuel IH]; intros port attempts Hf;
    cbn [find_port_loop]; destruct (is_port_in_use in_use port) as [busy|e]; eauto;
    destruct busy; cbn [andb]; eauto;
    destruct (attempts >? 0) eqn:Ea; eauto.
  - lia.
  - apply IH. lia.
Qed.

Lemma find_port_loop_spec (in_use : Z -> bool) (fuel : nat) (port attempts : Z) :
  (Z.to_nat attempts <= fuel)%nat ->
  0 <= port -> port + Z.max attempts 0 <= 65535 ->
  exists p m,
    find_port_loop in_use fuel port attempts = Some (Ok (p, m))
    /\ port <= p /\ p - port = Z.max attempts 0 - Z.max m 0
    /\ (0 < attempts -> 0 <= m)
    /\ (attempts <= 0 -> m = attempts)
    /\ (forall q, port <= q < p -> in_use q = true)
    /\ (0 < m -> in_use p = false).
Proof.
  revert port attempts.
  induction fuel as [|fuel IH]; intros port attempts Hf H0 Hhi;
    cbn [find_port_loop]; rewrite is_port_in_use_in_range by lia.
  - destruct (in_use port) eqn:Ep; cbn [andb].
    + destruct (attempts >? 0) eqn:Ea; [lia|].
      exists port, attempts. repeat split; try lia.
    + exists port, attempts. repeat split; try lia; auto.
  - destruct (in_use port) eqn:Ep; cbn [andb].
    + destruct (attempts >? 0) eqn:Ea.
      * destruct (IH (port + 1) (attempts - 1) ltac:(lia) ltac:(lia) ltac:(lia))
          as (p & m & Hl & H1 & H2 & H3 & H4 & H5 & H6).
        exists p, m. split; [exact Hl|]. repeat split; try lia.
        -- intros q Hq. destruct (Z.eq_dec q port) as [->|Hne]; [exact Ep|].
           apply H5. lia.
        -- exact H6.
      * exists port, attempts. repeat split; try lia.
    + exists port, attempts. repeat split; try lia; auto.
Qed.

Lemma find_port_loop_overflow (in_use : Z -> bool) (fuel : nat) (port attempts : Z) :
  (Z.to_nat attempts <= fuel)%nat ->
  0 <= port <= 65536 -> 65535 < port + attempts ->
  (forall q, port <= q <= 65535 -> in_use q = true) ->
  find_port_loop in_use fuel port attempts
  = Some (Raise (OtherError "bind(): port must be 0-65535.")).
Proof.
  revert port attempts.
  induction fuel as [|fuel IH]; intros port attempts Hf Hp Hov Hall;
    cbn [find_port_loop].
  - rewrite is_port_in_use_out_of_range by lia. reflexivity.
  - destruct (Z.eq_dec port 65536) as [->|Hne].
    { rewrite is_port_in_use_out_of_range by lia. reflexivity. }
    rewrite is_port_in_use_in_range by lia.
    rewrite Hall by lia. cbn [andb].
    destruct (attempts >? 0) eqn:Ea; [|lia].
    apply IH; try lia. intros q Hq. apply Hall. lia.
Qed.

(** X23.  [find_available_port] with at least [max_attempts] units of fuel
    always ends.  When every port it can probe is a port number, that is
    when [0 <= start_port] and [start_port + max_attempts <= 65535]: with
    [max_attempts > 0] it returns the first free port when one of the
    ports [start_port .. start_port + max_attempts - 1] is free, and raises
    when all of them are in use, without ever proposing
    [start_port + max_attempts]; with [max_attempts = 0] it always raises;
    with [max_attempts < 0] it returns [start_port] without a usable probe.
    A [start_port] that is not a port number makes the first probe raise,
    and so does a search that reaches port 65536 because every port from
    [start_port] to 65535 is in use: the error of [bind] is not caught. *)
Theorem find_available_port_spec
  (in_use : Z -> bool) (fuel : nat) (start_port max_attempts : Z) :
  (Z.to_nat max_attempts <= fuel)%nat ->
  exists outcome,
    find_available_port in_use fuel start_port max_attempts = Some outcome
    /\ (0 <= start_port -> start_port + Z.max max_attempts 0 <= 65535 ->
        (forall p, outcome = Ok p -> 0 < max_attempts ->
           start_port <= p < start_port + max_attempts
           /\ in_use p = false
           /\ forall q, start_port <= q < p -> in_use q = true)
        /\ (0 < max_attempts ->
            (forall q, start_port <= q < start_port + max_attempts ->
               in_use q = true) ->
            outcome = Raise (OtherError "Could not find an available port"))
        /\ (0 < max_attempts ->
            forall p, start_port <= p < start_port + max_attempts ->
              in_use p = false ->
              exists p', outcome = Ok p')
        /\ (max_attempts = 0 ->
            outcome = Raise (OtherError "Could not find an available port"))
        /\ (max_attempts < 0 -> outcome = Ok start_port))
    /\ (start_port < 0 \/ 65535 < start_port ->
        outcome = Raise (OtherError "bind(): port must be 0-65535."))
    /\ (0 <= start_port -> 65535 < start_port + max_attempts ->
        (forall q, start_port <= q <= 65535 -> in_use q = true) ->
        outcome = Raise (OtherError "bind(): port must be 0-65535.")).
Proof.
  intros Hf.
  assert (Hend : exists outcome,
             find_available_port in_use fuel start_port max_attempts = Some outcome).
  { unfold find_available_port.
    destruct (find_port_loop_ends in_use fuel start_port max_attempts Hf) as [r ->].
    destruct r as [[p m]|e]; eauto. }
  destruct Hend as [outcome Ho]. exists outcome. split; [exact Ho|].
  unfold find_available_port in Ho. split; [|split].
  - intros H0 Hhi.
    destruct (find_port_loop_spec in_use fuel start_port max_attempts Hf H0 Hhi)
      as (p & m & Hl & H1 & H2 & H3 & H4 & H5 & H6).
    rewrite Hl in Ho. injection Ho as <-.
    split; [|split; [|split; [|split]]].
    + intros p' Hp' Hpos. destruct (m =? 0) eqn:E; [discriminate|].
      inversion Hp'; subst p'. specialize (H3 Hpos).
      repeat split; try lia; auto. apply H6. lia.
    + intros Hpos Hall. destruct (m =? 0) eqn:E; [reflexivity|].
      specialize (H3 Hpos). assert (Hm : 0 < m) by lia.
      specialize (H6 Hm). rewrite Hall in H6 by lia. discriminate.
    + intros Hpos q Hq Hfree. destruct (m =? 0) eqn:E; [|eauto].
      specialize (H3 Hpos). assert (p = start_port + max_attempts) by lia.
      rewrite H5 in Hfree by lia. discriminate.
    + intros ->. rewrite (H4 ltac:(lia)). reflexivity.
    + intros Hneg. rewrite (H4 ltac:(lia)).
      destruct (max_attempts =? 0) eqn:E; [lia|]. f_equal. lia.
  - intros Hout.
    assert (Hl : find_port_loop in_use fuel start_port max_attempts
                 = Some (Raise (OtherError "bind(): port must be 0-65535."))).
    { destruct fuel; cbn [find_port_loop];
        now rewrite is_port_in_use_out_of_range. }
    rewrite Hl in Ho. now injection Ho as <-.
  - intros H0 Hov Hall.
    destruct (Z_le_gt_dec start_port 65535) as [Hle|Hgt].
    + rewrite (find_port_loop_overflow in_use fuel start_port max_attempts Hf)
        in Ho by (try lia; exact Hall).
      now injection Ho as <-.
    + assert (Hl : find_port_loop in_use fuel start_port max_attempts
                   = Some (Raise (OtherError "bind(): port must be 0-65535."))).
      { destruct fuel; cbn [find_port_loop];
          now rewrite is_port_in_use_out_of_range by lia. }
      rewrite Hl in Ho. now injection Ho as <-.
Qed.

End FurtherProperties.

(** * The further properties on the sample deployment *)

Section FurtherSampleDeployment.

Existing Instance Sample.runtime.

Lemma rejection_announces_at_most_60_seconds_sample :
  exists time_left,
    0 <= time_left <= 60
    /\ check_rate_limit Sample.ip 20%Q Scenario.blocked
       = (Raise (HTTPException 429
                   ("Too many login attempts. Please try again in "
                      ++ pretty time_left ++ " seconds")), Scenario.blocked).
Proof.
  apply (rejection_announces_at_most_60_seconds Sample.ip 20%Q Scenario.blocked
           5 0%Q).
  - vm_compute. reflexivity.
  - lia.
  - vm_compute. discriminate.
  - vm_compute. discriminate.
Defined.

Lemma three_wrong_passwords_lock_out_sample :
  let st3 := login_seq Sample.SECRET_KEY Sample.verify_password Sample.ip
               "alice@example.com" [("a", 0%Q); ("b", 10%Q); ("c", 20%Q)]
               0 Sample.env Scenario.registered in
  login Sample.SECRET_KEY Sample.verify_password Sample.ip "alice@example.com"
    "Passw0rd" 30%Q 30%Q 0 Sample.env st3
  = (Raise (HTTPException 429 (too_many_detail (int (60 - (30 - 0))))), st3).
Proof.
  exact (proj2 (three_wrong_passwords_lock_out Sample.SECRET_KEY
                  Sample.verify_password Sample.ip "alice@example.com" "a" "b" "c"
                  0%Q 10%Q 20%Q 30%Q 0 Sample.env Scenario.registered
                  Sample.alice_doc eq_refl eq_refl eq_refl eq_refl eq_refl
                  ltac:(vm_compute; discriminate) ltac:(vm_compute; discriminate)
                  ltac:(vm_compute; discriminate)) "Passw0rd").
Defined.

Lemma login_unknown_email_counts_once_sample :
  login Sample.SECRET_KEY Sample.verify_password Sample.ip "bob@example.com"
    "Passw0rd" 0%Q 0%Q 0 Sample.env Scenario.registered
  = (Raise (HTTPException 401 "Email not registered"),
     set_login_attempts <[Sample.ip := (1, 0%Q)]> Scenario.registered).
Proof.
  apply login_unknown_email_counts_once.
  - apply check_rate_limit_first. reflexivity.
  - reflexivity.
Defined.

Lemma register_then_login_sample :
  let st1 := snd (register_endpoint Sample.get_password_hash Sample.EmailStr
                    (mkRegisterBody "Bob@Example.com" "Bob" "Secret1x") 7
                    Sample.empty) in
  exists tok,
    login Sample.SECRET_KEY Sample.verify_password Sample.ip " BOB@example.com "
      "Secret1x" 0%Q 0%Q 9 Sample.env st1
    = (Ok (mkLoginResponse tok "bearer" 1800 ("bob@example.com", "Bob")),
       set_login_attempts (delete Sample.ip) st1).
Proof.
  intros st1.
  refine (register_then_login Sample.SECRET_KEY Sample.get_password_hash
            Sample.verify_password Sample.EmailStr
            (mkRegisterBody "Bob@Example.com" "Bob" "Secret1x")
            (mkUserCreate "Bob@Example.com" "Bob" "Secret1x") 7 Sample.empty
            Sample.ip " BOB@example.com " 0%Q 0%Q 9 Sample.env
            (snd (check_rate_limit Sample.ip 0%Q st1)) (Sample.hashed "Secret1x")
            _ eq_refl eq_refl eq_refl eq_refl eq_refl eq_refl _).
  - intros p h Hh. unfold Sample.get_password_hash in Hh.
    destruct (any _ p); [discriminate Hh|]. injection Hh as <-.
    apply String.eqb_refl.
  - apply check_rate_limit_first. reflexivity.
Defined.

Lemma login_token_resolves_user_sample :
  exists u,
    In u (users Sample.three_attempts)
    /\ resp_user Scenario.login_response = (u_email u, u_name u)
    /\ get_current_user Sample.SECRET_KEY (access_token Scenario.login_response)
         (minutes 30) (snd Scenario.logged_in)
       = (Ok (mkUser (u_email u) (u_name u) (u_hashed_password u)),
          snd Scenario.logged_in).
Proof.
  apply (login_token_resolves_user Sample.SECRET_KEY Sample.verify_password
           Sample.ip " Alice@Example.com" "Passw0rd" 10%Q 10%Q 0 Sample.env
           Sample.three_attempts).
  - vm_compute. reflexivity.
  - vm_compute. discriminate.
Defined.

Lemma register_keeps_emails_normalized_sample :
  emails_normalized
    (snd (register_endpoint Sample.get_password_hash Sample.EmailStr
            (mkRegisterBody "Bob@Example.com" "Bob" "Secret1x") 7
            Scenario.registered)).
Proof.
  apply register_keeps_emails_normalized; [exact ascii_lower_idempotent|]. split.
  - repeat constructor.
  - cbn. apply NoDup_singleton.
Defined.

Lemma classify_video_genre_range_sample : "music" ∈ genres.
Proof.
  apply (classify_video_genre_range Sample.classifier "First video" "").
  vm_compute. reflexivity.
Defined.

Lemma add_youtube_playlist_success_sample :
  videos (snd Scenario.ingest)
  = (videos Sample.empty ++ pl_videos Scenario.ingest_result)%list
  /\ pl_count Scenario.ingest_result = 1.
Proof.
  assert (Hrun : add_youtube_playlist Sample.classifier Sample.youtube_playlist_items
                   Sample.playlist_url Sample.alice 0 Sample.empty
                 = (Ok Scenario.ingest_result, snd Scenario.ingest)).
  { vm_compute. reflexivity. }
  destruct (add_youtube_playlist_success _ _ _ _ _ _ _ _ Hrun)
    as (response & data & its & Hy & _ & Hj & Hi & _ & Hcount & Hvideos & _).
  split; [exact Hvideos|].
  rewrite Hcount. vm_compute in Hy. inversion Hy; subst response.
  vm_compute in Hj. inversion Hj; subst data.
  vm_compute in Hi. inversion Hi; subst its. reflexivity.
Defined.

Lemma add_youtube_playlist_malformed_item_sample :
  exists k,
    k ∈ ["snippet"; "resourceId"; "videoId"; "title"; "thumbnails"]
    /\ add_youtube_playlist Sample.classifier Scenario.broken_playlist
         Sample.playlist_url Sample.alice 0 Sample.empty
       = (Raise (HTTPException 500 ("An error occurred: '" ++ k ++ "'")),
          log_call (mkHttpCall "https://www.googleapis.com/youtube/v3/playlistItems"
                      "PL1") Sample.empty).
Proof.
  refine (add_youtube_playlist_malformed_item Sample.classifier
            Scenario.broken_playlist Sample.playlist_url Sample.alice 0 Sample.empty
            Scenario.broken_response _ _
            (mkItem (Some (mkSnippet None (Some "Second video") None
                             (Some (mkThumbnails None None None None)))))
            eq_refl eq_refl eq_refl eq_refl eq_refl _ _).
  - right. left. reflexivity.
  - right. eexists. split; [reflexivity|]. left. reflexivity.
Defined.

Lemma add_youtube_playlist_requests_clean_id_sample :
  exists playlist_id,
    contains "&" playlist_id = false
    /\ http_log (snd (add_youtube_playlist Sample.classifier
                        Sample.youtube_playlist_items
                        "https://www.youtube.com/watch?v=x&list=PL1&index=2"
                        Sample.alice 0 Sample.empty))
       = (http_log Sample.empty
          ++ [mkHttpCall "https://www.googleapis.com/youtube/v3/playlistItems"
                playlist_id])%list.
Proof.
  apply add_youtube_playlist_requests_clean_id. reflexivity.
Defined.

Lemma accepted_instagram_url_has_id_sample :
  exists i,
    search_video_id Scenario.reel_url = Some i
    /\ i <> "" /\ any (fun c => negb (is_id_char c)) i = false.
Proof.
  apply accepted_instagram_url_has_id. reflexivity.
Defined.


Lemma update_watch_status_then_repeat_sample :
  let st' := set_videos (fun _ => [set_watchStatus "watched" Scenario.one_video])
               Scenario.library in
  update_watch_status "v1" "watched" Sample.alice Scenario.library
  = (Ok "Watch status updated", st')
  /\ update_watch_status "v1" "watched" Sample.alice st'
     = (Raise (HTTPException 404 "Video not found"), st').
Proof.
  refine (update_watch_status_then_repeat "watched" Sample.alice Scenario.library
            [] [] Scenario.one_video eq_refl _ eq_refl _ _).
  - constructor.
  - constructor.
  - discriminate.
Defined.

Lemma watched_video_leaves_the_sweep_sample :
  fst (check_unwatched_videos_once (days 15) Scenario.library) = [Scenario.one_video]
  /\ fst (check_unwatched_videos_once (days 15)
            (snd (update_watch_status "v1" "watched" Sample.alice Scenario.library)))
     = [].
Proof.
  refine (proj2 (watched_video_leaves_the_sweep Sample.alice Scenario.library
                   [] [] Scenario.one_video (days 15) eq_refl _ eq_refl _)).
  - constructor.
  - discriminate.
Defined.

Lemma sweeper_keeps_notifying_sample :
  v_watchStatus Scenario.one_video = "unwatched"
  /\ In Scenario.one_video
       (fst (check_unwatched_videos_once (days 15) Scenario.library))
  /\ In (send_notification "alice@example.com" "First video")
        (snd (check_unwatched_videos_once (days 15) Scenario.library)).
Proof.
  apply (sweeper_keeps_notifying (days 14) (days 15) Scenario.library
           Scenario.library Scenario.one_video).
  - left. reflexivity.
  - vm_compute. discriminate.
  - left. reflexivity.
Defined.

Lemma find_available_port_spec_sample :
  exists outcome,
    find_available_port Scenario.ports_in_use 10 8000 10 = Some outcome
    /\ (forall p, outcome = Ok p ->
          8000 <= p < 8010 /\ Scenario.ports_in_use p = false).
Proof.
  destruct (find_available_port_spec Scenario.ports_in_use 10 8000 10
              ltac:(vm_compute; lia))
    as (outcome & Hrun & Hin & _).
  destruct (Hin ltac:(lia) ltac:(vm_compute; discriminate)) as (Hok & _).
  exists outcome. split; [exact Hrun|].
  intros p Hp. destruct (Hok p Hp ltac:(lia)) as (Hr & Hfree & _). split; [lia | exact Hfree].
Defined.

End FurtherSampleDeployment.
